(** * Percify Avatar Co-Pilot: a shallow embedding of [src/server.ts]

    The agent class [PercifyAvatarAgent] keeps one [AgentState] (an optional
    avatar profile and a bounded memory log), answers documentation queries
    from a static catalog and assembles the system prompt of each turn.

    Conventions of the embedding.
    - A JavaScript string is a [string], read as a sequence of code units
      below 256; [toLowerCase], [includes] and [split] are the JavaScript
      operations on this range, which holds the whole catalog (it is pure
      ASCII).  The two literals with characters beyond it, in the snippet and
      in the prompt, are the bytes of their UTF-8 form; they are only copied.
    - A method that reads [this.state] and calls [this.setState] is a
      computation in the state monad over [AgentState].
    - [generateId()], [new Date().toISOString()], [getSchedulePrompt] and
      [toLocaleDateString] belong to the host: their results are arguments.
    - [console.log] writes to the host's log and is left out. *)

From Stdlib Require Import String Ascii List Bool Arith ZArith Lia.
From ExtLib Require Import Structures.Monad Structures.MonadState.
From ExtLib Require Import Data.Monads.StateMonad.
Import ListNotations.
Import MonadNotation.
Local Open Scope monad_scope.
Local Open Scope list_scope.
Local Open Scope string_scope.

(* ------------------------------------------------------------------ *)
(** ** JavaScript helpers *)

(** [arr.slice(-n)]: the last [n] elements, the whole array when it is
    shorter. *)
Definition sliceLast {A : Type} (n : nat) (l : list A) : list A :=
  skipn (List.length l - n) l.

(** Truthiness of a string: every string but the empty one. *)
Definition truthy (s : string) : bool :=
  match s with
  | EmptyString => false
  | String _ _ => true
  end.

(** [a || b] where [a] is a possibly undefined string. *)
Definition orStr (a : option string) (b : string) : string :=
  match a with
  | Some s => if truthy s then s else b
  | None => b
  end.

(** [a || b] where [a] is a possibly undefined value whose defined values
    are all truthy (an array, a non-empty enum literal). *)
Definition orElse {A : Type} (a : option A) (b : A) : A :=
  match a with
  | Some x => x
  | None => b
  end.

Definition nl : string := String (ascii_of_nat 10) EmptyString.
Definition dq : string := String (ascii_of_nat 34) EmptyString.

(** [!v] for a value that is an object or [null]. *)
Definition isNull {A : Type} (v : option A) : bool :=
  match v with
  | Some _ => false
  | None => true
  end.

(** [arr.join(sep)] *)
Fixpoint join (sep : string) (l : list string) : string :=
  match l with
  | [] => EmptyString
  | [x] => x
  | x :: rest => x ++ sep ++ join sep rest
  end.

(* ------------------------------------------------------------------ *)
(** ** Type definitions *)

Inductive Tone := casual | professional | playful | technical.

Definition toneName (t : Tone) : string :=
  match t with
  | casual => "casual"
  | professional => "professional"
  | playful => "playful"
  | technical => "technical"
  end.

Module AvatarProfile.
Record t := mk {
  id : string;
  displayName : string;
  bio : string;
  tone : Tone;
  expertiseTags : list string
}.
End AvatarProfile.

(** [Partial<AvatarProfile>]: every field may be left out. *)
Module PartialAvatar.
Record t := mk {
  id : option string;
  displayName : option string;
  bio : option string;
  tone : option Tone;
  expertiseTags : option (list string)
}.
(** the object literal [{}] *)
Definition empty : t := mk None None None None None.
End PartialAvatar.

Inductive MemoryType := task | preference | note.

Definition memoryTypeName (t : MemoryType) : string :=
  match t with
  | task => "task"
  | preference => "preference"
  | note => "note"
  end.

Module MemoryItem.
Record t := mk {
  id : string;
  createdAt : string;
  type : MemoryType;
  content : string
}.
End MemoryItem.

Record AgentState := mkAgentState {
  avatar : option AvatarProfile.t;
  memories : list MemoryItem.t
}.

(** [initialState] *)
Definition initialState : AgentState :=
  {| avatar := None; memories := [] |}.

(* ------------------------------------------------------------------ *)
(** ** The persisted state slot seen by [onStart]

    The storage substrate hands back whatever was persisted, so [onStart]
    cannot rely on the [AgentState] type: the slot is a JavaScript value. *)

Inductive JsPrim :=
| PNum (n : Z)
| PStr (s : string)
| PBool (b : bool).

Inductive MemoriesField :=
| MArray (items : list MemoryItem.t)
| MUndefined
| MPrim (p : JsPrim).

Inductive Slot :=
| SUndefined
| SNull
| SPrim (p : JsPrim)
| SObject (av : option AvatarProfile.t) (mems : MemoriesField).

(** [!v] on a slot *)
Definition slotFalsy (v : Slot) : bool :=
  match v with
  | SUndefined | SNull => true
  | SPrim (PNum n) => Z.eqb n 0
  | SPrim (PStr s) => negb (truthy s)
  | SPrim (PBool b) => negb b
  | SObject _ _ => false
  end.

(** [typeof v === "object"] *)
Definition typeofObject (v : Slot) : bool :=
  match v with
  | SNull | SObject _ _ => true
  | SUndefined | SPrim _ => false
  end.

(** [Array.isArray(this.state.memories)]; reading a property of a
    primitive gives [undefined]. *)
Definition memoriesIsArray (v : Slot) : bool :=
  match v with
  | SObject _ (MArray _) => true
  | _ => false
  end.

(** [{...this.state, memories: []}] *)
Definition withEmptyMemories (v : Slot) : Slot :=
  match v with
  | SObject av _ => SObject av (MArray [])
  | _ => SObject None (MArray [])
  end.

Definition onStart : state Slot unit :=
  st <- get ;;
  (if slotFalsy st || negb (typeofObject st)
   then put (SObject None (MArray []))
   else ret tt) ;;
  st <- get ;;
  (if negb (memoriesIsArray st)
   then put (withEmptyMemories st)
   else ret tt).

(** The slot as the typed [AgentState] the other methods work on. *)
Definition slotState (v : Slot) : option AgentState :=
  match v with
  | SObject av (MArray items) => Some {| avatar := av; memories := items |}
  | _ => None
  end.

(* ------------------------------------------------------------------ *)
(** ** State store *)

(** A method of the agent: a computation on [this.state]. *)
Abbreviation Agent := (state AgentState).

Definition setState (s : AgentState) : Agent unit := put s.

Definition getAvatarState : Agent AgentState :=
  st <- get ;;
  ret {| avatar := avatar st; memories := sliceLast 5 (memories st) |}.

(** [freshId] is the value [generateId()] would return if it is called. *)
Definition saveAvatarProfile (profileInput : PartialAvatar.t) (freshId : string)
  : Agent AvatarProfile.t :=
  st <- get ;;
  let currentAvatar := avatar st in
  let updatedAvatar :=
    {| AvatarProfile.id :=
         orStr (option_map AvatarProfile.id currentAvatar) freshId;
       AvatarProfile.displayName :=
         orStr (PartialAvatar.displayName profileInput)
           (orStr (option_map AvatarProfile.displayName currentAvatar)
              "Unnamed Avatar");
       AvatarProfile.bio :=
         orStr (PartialAvatar.bio profileInput)
           (orStr (option_map AvatarProfile.bio currentAvatar) EmptyString);
       AvatarProfile.tone :=
         orElse (PartialAvatar.tone profileInput)
           (orElse (option_map AvatarProfile.tone currentAvatar) casual);
       AvatarProfile.expertiseTags :=
         orElse (PartialAvatar.expertiseTags profileInput)
           (orElse (option_map AvatarProfile.expertiseTags currentAvatar) [])
    |} in
  setState {| avatar := Some updatedAvatar; memories := memories st |} ;;
  ret updatedAvatar.

(** [freshId] is the result of [generateId()], [now] the result of
    [new Date().toISOString()]. *)
Definition saveMemory (type : MemoryType) (content : string)
  (freshId now : string) : Agent (list MemoryItem.t) :=
  st <- get ;;
  let newMemory :=
    {| MemoryItem.id := freshId;
       MemoryItem.createdAt := now;
       MemoryItem.type := type;
       MemoryItem.content := content |} in
  let updatedMemories := (memories st ++ [newMemory])%list in
  let updatedMemories :=
    if (50 <? List.length updatedMemories)%nat
    then sliceLast 50 updatedMemories
    else updatedMemories in
  setState {| avatar := avatar st; memories := updatedMemories |} ;;
  ret (sliceLast 5 updatedMemories).

(** One call of [saveMemory] with what the host supplies to it. *)
Record SaveCall := mkSaveCall {
  callType : MemoryType;
  callContent : string;
  callId : string;
  callTime : string
}.

(** The memory item a call creates. *)
Definition itemOf (c : SaveCall) : MemoryItem.t :=
  {| MemoryItem.id := callId c;
     MemoryItem.createdAt := callTime c;
     MemoryItem.type := callType c;
     MemoryItem.content := callContent c |}.

Definition saveCall (c : SaveCall) : Agent (list MemoryItem.t) :=
  saveMemory (callType c) (callContent c) (callId c) (callTime c).

(** A sequence of [saveMemory] calls, one after the other. *)
Fixpoint saveCalls (calls : list SaveCall) : Agent unit :=
  match calls with
  | [] => ret tt
  | c :: rest => _ <- saveCall c ;; saveCalls rest
  end.

(* ------------------------------------------------------------------ *)
(** ** String operations of the document matcher *)

(** [c.toLowerCase()] on one code unit below 256: [A]-[Z] and the
    accented capitals of Latin-1 (all of 192..222 but the sign 215) move
    up by 32, everything else stays. *)
Definition lowerChar (c : ascii) : ascii :=
  let n := nat_of_ascii c in
  if ((65 <=? n) && (n <=? 90)
      || (192 <=? n) && (n <=? 222) && negb (n =? 215))%nat
  then ascii_of_nat (n + 32)
  else c.

Fixpoint toLowerCase (s : string) : string :=
  match s with
  | EmptyString => EmptyString
  | String c rest => String (lowerChar c) (toLowerCase rest)
  end.

(** [s.includes(sub)]: [sub] occurs in [s] at some position. *)
Fixpoint includes (s sub : string) : bool :=
  prefix sub s
  || match s with
     | EmptyString => false
     | String _ rest => includes rest sub
     end.

(** The class [\s] on code units below 256: tab, line feed, vertical tab,
    form feed, carriage return, space and the no-break space. *)
Definition isSpace (c : ascii) : bool :=
  let n := nat_of_ascii c in
  ((9 <=? n) && (n <=? 13) || (n =? 32) || (n =? 160))%nat.

(** [s.split(/\s+/)] reads [s] from left to right: [cur] is the piece
    being collected and [inSep] tells that the last character belonged to a
    separator.  A piece is closed by the first character of every maximal
    run of white space, and the last piece is closed by the end of the
    string, so a string that starts or ends with white space gives an empty
    first or last piece and the empty string gives one empty piece. *)
Fixpoint splitFrom (cur : string) (inSep : bool) (s : string) : list string :=
  match s with
  | EmptyString => [cur]
  | String c rest =>
      if isSpace c
      then (if inSep
            then splitFrom EmptyString true rest
            else cur :: splitFrom EmptyString true rest)
      else splitFrom (cur ++ String c EmptyString) false rest
  end.

Definition splitWhitespace (s : string) : list string :=
  splitFrom EmptyString false s.

(* ------------------------------------------------------------------ *)
(** ** Percify documentation database *)

Record Doc := mkDoc {
  title : string;
  content : string;
  path : string
}.

Definition doc_avatar : Doc :=
  {| title := "Avatar Setup Guide";
     content := "Percify Avatar Co-Pilot lets you create a personalized AI persona. Your avatar includes: displayName (your preferred name), bio (a short description), tone (casual/professional/playful/technical), and expertiseTags (your areas of expertise). Use the command 'create my avatar as [name]' or 'set my tone to professional' to customize your experience. Avatars persist across sessions using Cloudflare Durable Objects.";
     path := "/docs/avatar-guide" |}.

Definition doc_memory : Doc :=
  {| title := "Memory System";
     content := "Percify stores three types of memories: tasks (things to do), preferences (your likes/settings), and notes (general information). Say 'remember that I prefer dark mode' or 'note: meeting at 3pm'. Memories are stored persistently and limited to 50 items with automatic cleanup of oldest entries. Access recent memories anytime - they're included in your avatar context.";
     path := "/docs/memory-system" |}.

Definition doc_tone : Doc :=
  {| title := "Tone Customization";
     content := "Choose from 4 tone styles: CASUAL (friendly, relaxed, conversational), PROFESSIONAL (formal, precise, business-like), PLAYFUL (fun, energetic, humorous), TECHNICAL (detailed, accurate, uses technical terms). Change anytime with 'set my tone to [style]'. Your tone affects how Percify responds to all your messages.";
     path := "/docs/customization/tone" |}.

Definition doc_tools : Doc :=
  {| title := "Available Tools";
     content := "Percify has 4 core tools: 1) saveAvatarProfile - Create/update your avatar (name, bio, tone, expertise). 2) saveMemory - Store preferences, tasks, or notes. 3) researchWeb - Look up information from Percify docs. 4) getAvatarState - View current avatar and recent memories. Plus scheduling tools for reminders and recurring tasks.";
     path := "/docs/tools-reference" |}.

Definition doc_schedule : Doc :=
  {| title := "Scheduling & Reminders";
     content := "Schedule tasks with natural language: 'remind me in 1 hour to check email' or 'schedule daily standup at 9am'. Percify uses Cloudflare's scheduling system for reliable task execution. View scheduled tasks with 'show my schedules' and cancel with 'cancel schedule [id]'.";
     path := "/docs/scheduling" |}.

Definition doc_getting_started : Doc :=
  {| title := "Getting Started";
     content := "Welcome to Percify! Start by creating your avatar: tell me your name and preferred tone. Then save some preferences so I remember your style. Try: '1) Create avatar named Alex with professional tone, 2) Remember I prefer TypeScript, 3) Research how memory works'. Your data persists across sessions!";
     path := "/docs/getting-started" |}.

Definition doc_architecture : Doc :=
  {| title := "Technical Architecture";
     content := "Percify runs on Cloudflare's edge network using: Workers AI (Llama 3.3 70B model for inference), Durable Objects (persistent state storage), WebSockets (real-time chat), and the Agents SDK (orchestration). State is stored in SQLite within Durable Objects for low-latency global access.";
     path := "/docs/architecture" |}.

Definition doc_api : Doc :=
  {| title := "API Reference";
     content := "REST Endpoints: GET /api/avatar-state returns current avatar and last 5 memories. GET /check-open-ai-key returns provider status. WebSocket connects at /chat for real-time messaging. All endpoints return JSON. Authentication is handled per-session via Durable Object IDs.";
     path := "/docs/api-reference" |}.

Definition doc_expertise : Doc :=
  {| title := "Expertise Tags";
     content := "Add expertise tags to your avatar to help Percify understand your background. Examples: 'TypeScript', 'React', 'DevOps', 'Machine Learning'. Set with 'my expertise is [tag1], [tag2], [tag3]'. Tags help contextualize responses and can be used for personalized recommendations.";
     path := "/docs/customization/expertise" |}.

Definition doc_troubleshooting : Doc :=
  {| title := "Troubleshooting";
     content := "Common issues: 1) Avatar not saving? Ensure you provide at least a name. 2) Memories full? Oldest are auto-deleted after 50 items. 3) Slow responses? Check network connection. 4) Wrong tone? Say 'change tone to [style]'. 5) Reset everything? Say 'reset my avatar' to start fresh.";
     path := "/docs/troubleshooting" |}.

(** [percifyDocs]: a record literal, that is an association list in
    property order ([Object.entries] follows it) with distinct keys. *)
Definition percifyDocs : list (string * Doc) :=
  [ ("avatar", doc_avatar);
    ("memory", doc_memory);
    ("tone", doc_tone);
    ("tools", doc_tools);
    ("schedule", doc_schedule);
    ("getting_started", doc_getting_started);
    ("architecture", doc_architecture);
    ("api", doc_api);
    ("expertise", doc_expertise);
    ("troubleshooting", doc_troubleshooting) ].

(** [this.percifyDocs.getting_started] on a record: [undefined] when the
    property does not exist. *)
Fixpoint lookupDoc (key : string) (docs : list (string * Doc)) : option Doc :=
  match docs with
  | [] => None
  | (k, d) :: rest => if String.eqb k key then Some d else lookupDoc key rest
  end.

(* ------------------------------------------------------------------ *)
(** ** Document matcher *)

Record ResearchResult := mkResult {
  query : string;
  snippet : string;
  sourceUrl : string
}.

(** The body of [for (const word of queryWords)]. *)
Definition scoreWord (key contentLower : string) (score : Z) (word : string) : Z :=
  if (2 <? String.length word)%nat
  then
    let score := if includes key word then (score + 2)%Z else score in
    let score := if includes contentLower word then (score + 1)%Z else score in
    score
  else score.

(** The score one catalog entry gets in the loop of [researchWeb]. *)
Definition scoreDoc (queryLower key : string) (doc : Doc) : Z :=
  let score := 0%Z in
  let score := if includes queryLower key then (score + 10)%Z else score in
  let score :=
    if includes (toLowerCase (title doc)) queryLower
    then (score + 5)%Z else score in
  let score :=
    if includes (toLowerCase (content doc)) queryLower
    then (score + 3)%Z else score in
  let queryWords := splitWhitespace queryLower in
  fold_left (scoreWord key (toLowerCase (content doc))) queryWords score.

(** One iteration of [for (const [key, doc] of Object.entries(...))] on the
    pair [(bestMatch, matchScore)]. *)
Definition scanEntry (queryLower : string) (acc : option Doc * Z)
  (entry : string * Doc) : option Doc * Z :=
  let '(bestMatch, matchScore) := acc in
  let '(key, doc) := entry in
  let score := scoreDoc queryLower key doc in
  if (matchScore <? score)%Z then (Some doc, score) else (bestMatch, matchScore).

Definition baseUrl : string := "https://docs.percify.io".

(** The object [researchWeb] returns for the chosen entry. *)
Definition renderResult (query : string) (bestMatch : Doc) : ResearchResult :=
  {| query := query;
     snippet := "📚 **" ++ title bestMatch ++ "** (docs.percify.io)"
                ++ nl ++ nl ++ content bestMatch;
     sourceUrl := baseUrl ++ path bestMatch |}.

(** [researchWeb] over any catalog.  [None] is the [TypeError] of reading
    [bestMatch.path] when the catalog has no [getting_started] entry to fall
    back on. *)
Definition researchDocs (docs : list (string * Doc)) (query : string)
  : option ResearchResult :=
  let queryLower := toLowerCase query in
  let '(bestMatch, matchScore) :=
    fold_left (scanEntry queryLower) docs (None, 0%Z) in
  let bestMatch :=
    if isNull bestMatch || (matchScore <? 2)%Z
    then lookupDoc "getting_started" docs
    else bestMatch in
  option_map (renderResult query) bestMatch.

Definition researchWeb (query : string) : Agent (option ResearchResult) :=
  ret (researchDocs percifyDocs query).

(* ------------------------------------------------------------------ *)
(** ** Context builder *)

Definition toneInstructions (t : Tone) : string :=
  match t with
  | casual =>
      "Be friendly, relaxed, and approachable. Use conversational language."
  | professional =>
      "Be formal, precise, and business-like. Maintain a professional demeanor."
  | playful =>
      "Be fun, energetic, and use humor when appropriate. Keep things light."
  | technical =>
      "Be detailed, accurate, and use technical terminology. Focus on precision."
  end.

(** The template of [getSystemPrompt] up to the tone of the avatar. *)
Definition promptHead : string :=
  join nl
  [ "You are Percify Avatar Co-Pilot, a friendly AI assistant that remembers each user's persona and preferences.";
    EmptyString;
    "## IMPORTANT: Be Helpful and Conversational";
    "- ALWAYS respond helpfully to ANY message, even simple greetings like " ++ dq ++ "hey" ++ dq ++ " or " ++ dq ++ "hello" ++ dq;
    "- For greetings, introduce yourself warmly and explain what you can do";
    "- NEVER ask for " ++ dq ++ "more details" ++ dq ++ " unless absolutely necessary - be proactive and helpful";
    "- If unsure what the user wants, offer suggestions instead of asking for clarification";
    EmptyString;
    "## Your Capabilities";
    "1. **Avatar Setup**: Help users create their AI persona (name, bio, tone, expertise)";
    "2. **Memory**: Remember preferences, tasks, and notes for the user";
    "3. **Research**: Look up information from docs.percify.io (official Percify documentation)";
    "4. **Chat**: Have friendly conversations";
    EmptyString;
    "## How to Respond";
    "- For " ++ dq ++ "hey" ++ dq ++ ", " ++ dq ++ "hello" ++ dq ++ ", " ++ dq ++ "hi" ++ dq ++ ": Greet warmly and introduce your capabilities";
    "- For " ++ dq ++ "create avatar" ++ dq ++ ", " ++ dq ++ "set up avatar" ++ dq ++ ", etc.: Use the saveAvatarProfile tool to help them create one";
    "- For " ++ dq ++ "remember X" ++ dq ++ ", " ++ dq ++ "note that X" ++ dq ++ ": Use the saveMemory tool";
    "- For " ++ dq ++ "research X" ++ dq ++ ", " ++ dq ++ "look up X" ++ dq ++ ", " ++ dq ++ "what is percify" ++ dq ++ ", " ++ dq ++ "how does X work" ++ dq ++ ": Use the researchWeb tool to search docs.percify.io";
    "- For questions about Percify features: ALWAYS use researchWeb to fetch from docs.percify.io";
    "- Maintain the avatar's tone (" ].

(** The template between the tone directive and the schedule prompt. *)
Definition promptMiddle : string :=
  join nl
  [ EmptyString;
    EmptyString;
    "## Example Responses";
    "- User: " ++ dq ++ "hey" ++ dq ++ " → " ++ dq ++ "Hey there! 👋 I'm Percify, your AI co-pilot! I can help you create a personalized avatar, remember your preferences, and look up our docs. Want to set up your avatar? Just tell me your name and what kind of tone you prefer (casual, professional, playful, or technical)!" ++ dq;
    "- User: " ++ dq ++ "create an avatar" ++ dq ++ " → Use saveAvatarProfile tool with a friendly default, then confirm";
    "- User: " ++ dq ++ "I prefer TypeScript" ++ dq ++ " → Use saveMemory tool with type " ++ dq ++ "preference" ++ dq;
    "- User: " ++ dq ++ "what is percify" ++ dq ++ " → Use researchWeb tool to fetch from docs.percify.io";
    "- User: " ++ dq ++ "how do memories work" ++ dq ++ " → Use researchWeb tool with query " ++ dq ++ "memory" ++ dq;
    EmptyString;
    "## Tools Available";
    "- saveAvatarProfile: Set name, bio, tone (casual/professional/playful/technical), expertiseTags";
    "- saveMemory: Store preferences, tasks, or notes  ";
    "- researchWeb: Search docs.percify.io for documentation on Percify features";
    EmptyString;
    EmptyString ].

Section ContextBuilder.

(** [new Date(createdAt).toLocaleDateString()]: the host renders the
    timestamp in its locale. *)
Variable toLocaleDateString : string -> string.

(** The result of [getSchedulePrompt({ date: new Date() })]. *)
Variable schedulePrompt : string.

(** The lines about the avatar. *)
Definition avatarLines (av : option AvatarProfile.t) : string :=
  match av with
  | Some avatar =>
      "- Name: " ++ AvatarProfile.displayName avatar ++ nl
      ++ "- Bio: " ++ orStr (Some (AvatarProfile.bio avatar)) "Not set" ++ nl
      ++ "- Tone: " ++ toneName (AvatarProfile.tone avatar) ++ nl
      ++ "- Expertise: "
      ++ (if (0 <? List.length (AvatarProfile.expertiseTags avatar))%nat
          then join ", " (AvatarProfile.expertiseTags avatar)
          else "None specified")
      ++ nl
  | None => "- No avatar profile set yet. The user can create one." ++ nl
  end.

(** The line of one memory. *)
Definition memoryLine (mem : MemoryItem.t) : string :=
  "- [" ++ memoryTypeName (MemoryItem.type mem) ++ "] "
  ++ MemoryItem.content mem
  ++ " (" ++ toLocaleDateString (MemoryItem.createdAt mem) ++ ")" ++ nl.

Definition buildContextString : Agent string :=
  st <- get ;;
  let avatar := avatar st in
  let recentMemories := sliceLast 3 (memories st) in
  let context := "## Current Avatar State" ++ nl in
  let context := context ++ avatarLines avatar in
  let context := context ++ nl ++ "## Recent Memories" ++ nl in
  let context :=
    if (0 <? List.length recentMemories)%nat
    then fold_left (fun context mem => context ++ memoryLine mem)
           recentMemories context
    else context ++ "- No memories stored yet." ++ nl in
  ret context.

Definition getSystemPrompt : Agent string :=
  st <- get ;;
  let tone := orElse (option_map AvatarProfile.tone (avatar st)) casual in
  context <- buildContextString ;;
  ret (promptHead ++ toneName tone ++ "): " ++ toneInstructions tone
       ++ promptMiddle ++ schedulePrompt ++ nl ++ nl ++ context).

End ContextBuilder.

(* ------------------------------------------------------------------ *)
(** ** Worker entry point *)

#[local] Set Warnings "-register-all".

Inductive Json :=
| JNull
| JBool (b : bool)
| JStr (s : string)
| JArr (items : list Json)
| JObj (fields : list (string * Json)).

Inductive Body :=
| BJson (value : Json)
| BText (text : string).

Record Response := mkResponse {
  status : Z;
  body : Body
}.

(** [Response.json(value)] *)
Definition jsonResponse (value : Json) : Response :=
  {| status := 200; body := BJson value |}.

(** [fetch] decides on [url.pathname].  [routed] is what
    [routeAgentRequest(request, env)] resolves to, [None] when it finds no
    agent for the request.  The [try] block of the avatar-state branch holds
    one call that cannot throw, so its [catch] is never entered. *)
Definition fetch (pathname : string) (routed : option Response) : Response :=
  if String.eqb pathname "/check-open-ai-key"
  then jsonResponse (JObj [("success", JBool true);
                           ("provider", JStr "workers-ai")])
  else if String.eqb pathname "/api/avatar-state"
  then jsonResponse
         (JObj [("message",
                 JStr "Use WebSocket connection to access avatar state")])
  else match routed with
       | Some r => r
       | None => {| status := 404; body := BText "Not found" |}
       end.

(** What [JSON.stringify] makes of the values of the state. *)
Definition jsonOfAvatar (a : AvatarProfile.t) : Json :=
  JObj [("id", JStr (AvatarProfile.id a));
        ("displayName", JStr (AvatarProfile.displayName a));
        ("bio", JStr (AvatarProfile.bio a));
        ("tone", JStr (toneName (AvatarProfile.tone a)));
        ("expertiseTags", JArr (map JStr (AvatarProfile.expertiseTags a)))].

Definition jsonOfMemory (m : MemoryItem.t) : Json :=
  JObj [("id", JStr (MemoryItem.id m));
        ("createdAt", JStr (MemoryItem.createdAt m));
        ("type", JStr (memoryTypeName (MemoryItem.type m)));
        ("content", JStr (MemoryItem.content m))].

(** A property whose value is [undefined] is left out. *)
Definition jsonOfState (s : AgentState) : Json :=
  JObj (match avatar s with
        | Some a => [("avatar", jsonOfAvatar a)]
        | None => []
        end
        ++ [("memories", JArr (map jsonOfMemory (memories s)))])%list.

(* ------------------------------------------------------------------ *)
(** ** Message sanitizer *)

(** One record of the conversation history. *)
Inductive HistoryRecord :=
| TextMessage (role : string) (text : string)
| ToolInvocation (invocationId : string) (toolName : string) (input : string)
| ToolResult (invocationId : string) (output : string).

Definition isResultOf (invocationId : string) (r : HistoryRecord) : bool :=
  match r with
  | ToolResult c _ => String.eqb c invocationId
  | _ => false
  end.

(** A tool invocation with no matching result in the history. *)
Definition dangling (h : list HistoryRecord) (r : HistoryRecord) : bool :=
  match r with
  | ToolInvocation c _ _ => negb (existsb (isResultOf c) h)
  | _ => false
  end.

(** Drops the records at the end of the history for which [drop] holds, up
    to the last record that is to stay. *)
Fixpoint stripTrailing (drop : HistoryRecord -> bool) (h : list HistoryRecord)
  : list HistoryRecord :=
  match h with
  | [] => []
  | r :: rest =>
      match stripTrailing drop rest with
      | [] => if drop r then [] else [r]
      | kept => r :: kept
      end
  end.

(** Modelled from the spec: [cleanupMessages] is imported from [./utils],
    which is not among the sources.  Section 4.3 asks the sanitizer to remove
    any trailing tool-invocation record that has no matching result, so that
    the history never ends in the middle of a tool call. *)
Definition sanitize (h : list HistoryRecord) : list HistoryRecord :=
  stripTrailing (dangling h) h.

(* ------------------------------------------------------------------ *)
(** ** Step orchestrator *)

(** What the inference collaborator returns for one invocation: a final
    answer, or the text produced so far with one or more tool calls. *)
Inductive ModelReply :=
| FinalAnswer (text : string)
| ToolCalls (partialText : string) (calls : list HistoryRecord).

Inductive Phase :=
| AWAIT_MODEL
| EXECUTE_TOOLS (calls : list HistoryRecord)
| DONE.

Record Turn := mkTurn {
  phase : Phase;
  history : list HistoryRecord;
  (** the histories the collaborator was invoked with, latest first *)
  invocations : list (list HistoryRecord);
  (** the tool calls that were executed, latest first *)
  executed : list HistoryRecord;
  stepCounter : nat;
  output : string
}.

(** The argument of [stepCountIs] in [onChatMessage]. *)
Definition maxSteps : nat := 10.

Section StepOrchestrator.

(** The inference collaborator: any function of the history. *)
Variable infer : list HistoryRecord -> ModelReply.

(** The handler of a tool call, giving its tool-result record. *)
Variable runTool : HistoryRecord -> HistoryRecord.

(** The tool calls a reply asks for. *)
Definition replyCalls (reply : ModelReply) : list HistoryRecord :=
  match reply with
  | FinalAnswer _ => []
  | ToolCalls _ calls => calls
  end.

(** Modelled from the spec: the loop runs inside [streamText] of the [ai]
    package, the source only passes [stopWhen: stepCountIs(10)].  Section
    4.6 gives the states: [AWAIT_MODEL] invokes the collaborator, a final
    answer leads to [DONE] and tool calls lead to [EXECUTE_TOOLS], which
    runs the handler of every call and appends the calls and their results
    to the history.  A step of [streamText] is one invocation together with
    the execution of the tool calls of its reply, and the stop condition is
    looked at when a step is complete: the step counter is compared with
    the cap on leaving [EXECUTE_TOOLS], and the turn goes back to
    [AWAIT_MODEL] only below the cap. *)
Definition orchestratorStep (t : Turn) : Turn :=
  match phase t with
  | AWAIT_MODEL =>
      let steps := S (stepCounter t) in
      match infer (history t) with
      | FinalAnswer text =>
          {| phase := DONE; history := history t;
             invocations := history t :: invocations t;
             executed := executed t;
             stepCounter := steps; output := text |}
      | ToolCalls partialText calls =>
          {| phase := EXECUTE_TOOLS calls;
             history := history t;
             invocations := history t :: invocations t;
             executed := executed t;
             stepCounter := steps; output := partialText |}
      end
  | EXECUTE_TOOLS calls =>
      {| phase := if (maxSteps <=? stepCounter t)%nat
                  then DONE else AWAIT_MODEL;
         history := (history t ++ calls ++ map runTool calls)%list;
         invocations := invocations t;
         executed := (rev calls ++ executed t)%list;
         stepCounter := stepCounter t; output := output t |}
  | DONE => t
  end.

Fixpoint orchestrate (fuel : nat) (t : Turn) : Turn :=
  match fuel with
  | O => t
  | S fuel' => orchestrate fuel' (orchestratorStep t)
  end.

Definition startTurn (h : list HistoryRecord) : Turn :=
  {| phase := AWAIT_MODEL; history := h; invocations := [];
     executed := []; stepCounter := 0; output := EmptyString |}.

(** One conversational turn: every transition costs one unit of fuel, and
    a turn has at most [maxSteps] invocations, each followed by at most one
    round of executions. *)
Definition runTurn (h : list HistoryRecord) : Turn :=
  orchestrate (2 * maxSteps) (startTurn h).

End StepOrchestrator.

(* ------------------------------------------------------------------ *)
(** ** The matcher as the specification words it *)

(** The score of a catalog entry for the lower-cased query. *)
Definition entryScore (queryLower : string) (entry : string * Doc) : Z :=
  scoreDoc queryLower (fst entry) (snd entry).

(** What one token of length above 2 adds: 2 when the key contains it and 1
    when the lower-cased content contains it. *)
Definition specTokenScore (key contentLower token : string) : Z :=
  (if includes key token then 2 else 0)
  + (if includes contentLower token then 1 else 0).

Definition sumZ (l : list Z) : Z := fold_right Z.add 0%Z l.

(** The score as the sum the specification gives. *)
Definition specScore (queryLower key : string) (doc : Doc) : Z :=
  (if includes queryLower key then 10 else 0)
  + (if includes (toLowerCase (title doc)) queryLower then 5 else 0)
  + (if includes (toLowerCase (content doc)) queryLower then 3 else 0)
  + sumZ (map (specTokenScore key (toLowerCase (content doc)))
            (filter (fun token => (2 <? String.length token)%nat)
               (splitWhitespace queryLower))).

(** [entry] is the first entry of [docs] that reaches the maximum score:
    the entries before it score less, the entries after it do not score
    more. *)
Definition firstMaximum (queryLower : string) (docs : list (string * Doc))
  (before : list (string * Doc)) (entry : string * Doc)
  (after : list (string * Doc)) : Prop :=
  docs = (before ++ entry :: after)%list
  /\ Forall (fun e => entryScore queryLower e < entryScore queryLower entry)%Z
       before
  /\ Forall (fun e => entryScore queryLower e <= entryScore queryLower entry)%Z
       after.

(* ------------------------------------------------------------------ *)
(** ** Invariant and measure of the step orchestrator *)

(** The transitions a turn can still make: two for every step that is left,
    one more while the tools of the current step wait to be executed. *)
Definition transitionsLeft (t : Turn) : nat :=
  match phase t with
  | AWAIT_MODEL => 2 * (maxSteps - stepCounter t)
  | EXECUTE_TOOLS _ => 2 * (maxSteps - stepCounter t) + 1
  | DONE => 0
  end.

(** The step counter counts the invocations, never passes the cap, and is
    below the cap whenever the collaborator is about to be invoked. *)
Definition turnInvariant (t : Turn) : Prop :=
  List.length (invocations t) = stepCounter t
  /\ stepCounter t <= maxSteps
  /\ (phase t = AWAIT_MODEL -> stepCounter t < maxSteps).

(** The tool calls of the replies to the given invocations, latest
    first. *)
Definition callsOfReplies (infer : list HistoryRecord -> ModelReply)
  (invoked : list (list HistoryRecord)) : list HistoryRecord :=
  flat_map (fun h => rev (replyCalls (infer h))) invoked.

(** What was executed: the calls of the replies to all invocations, but
    for those of the latest reply while they wait in [EXECUTE_TOOLS]; there
    the history is still the one of the latest invocation, and the output is
    the partial text of its reply. *)
Definition executionInvariant (infer : list HistoryRecord -> ModelReply)
  (t : Turn) : Prop :=
  match phase t with
  | EXECUTE_TOOLS calls =>
      exists latest earlier,
        invocations t = latest :: earlier
        /\ infer latest = ToolCalls (output t) calls
        /\ history t = latest
        /\ executed t = callsOfReplies infer earlier
  | _ => executed t = callsOfReplies infer (invocations t)
  end.

(** What holds of a turn against a collaborator that always asks for tools:
    it ends only at the cap, its output is the partial text of the latest
    reply, and its history is the one of the latest invocation followed by
    the calls of that reply and their results. *)
Definition cappedTurn (infer : list HistoryRecord -> ModelReply)
  (runTool : HistoryRecord -> HistoryRecord) (t : Turn) : Prop :=
  phase t = DONE ->
  stepCounter t = maxSteps
  /\ exists latest calls,
       hd_error (invocations t) = Some latest
       /\ infer latest = ToolCalls (output t) calls
       /\ history t = (latest ++ calls ++ map runTool calls)%list.

(* ------------------------------------------------------------------ *)
(** ** Sequences of method calls *)

(** A call of one of the methods that the tools and the state endpoint of
    the agent reach, with what the host supplies to it. *)
Inductive AgentCall :=
| CallSaveMemory (c : SaveCall)
| CallSaveAvatarProfile (profileInput : PartialAvatar.t) (freshId : string)
| CallResearchWeb (query : string)
| CallGetAvatarState.

Definition perform (call : AgentCall) : Agent unit :=
  match call with
  | CallSaveMemory c => _ <- saveCall c ;; ret tt
  | CallSaveAvatarProfile profileInput freshId =>
      _ <- saveAvatarProfile profileInput freshId ;; ret tt
  | CallResearchWeb query => _ <- researchWeb query ;; ret tt
  | CallGetAvatarState => _ <- getAvatarState ;; ret tt
  end.

Fixpoint performAll (calls : list AgentCall) : Agent unit :=
  match calls with
  | [] => ret tt
  | call :: rest => _ <- perform call ;; performAll rest
  end.

(** The ids [generateId()] hands out in a sequence of calls are not
    empty. *)
Definition idsNotEmpty (calls : list AgentCall) : Prop :=
  Forall (fun call =>
            match call with
            | CallSaveAvatarProfile _ freshId => truthy freshId = true
            | _ => True
            end) calls.

(** What the methods keep true of the state: the log is within the cap and
    a stored avatar has an id and a display name that are not empty. *)
Definition keptState (s : AgentState) : Prop :=
  List.length (memories s) <= 50
  /\ match avatar s with
     | Some a =>
         truthy (AvatarProfile.id a) = true
         /\ truthy (AvatarProfile.displayName a) = true
     | None => True
     end.

(** An update without the fields the merge does not look at: the id, and
    the strings that are supplied empty. *)
Definition effectiveInput (p : PartialAvatar.t) : PartialAvatar.t :=
  let nonEmpty := fun (o : option string) =>
    match o with
    | Some x => if truthy x then Some x else None
    | None => None
    end in
  {| PartialAvatar.id := None;
     PartialAvatar.displayName := nonEmpty (PartialAvatar.displayName p);
     PartialAvatar.bio := nonEmpty (PartialAvatar.bio p);
     PartialAvatar.tone := PartialAvatar.tone p;
     PartialAvatar.expertiseTags := PartialAvatar.expertiseTags p |}.

(** [this.state.avatar?.tone || "casual"] *)
Definition currentTone (s : AgentState) : Tone :=
  orElse (option_map AvatarProfile.tone (avatar s)) casual.

(** A string that holds a white-space character. *)
Fixpoint hasSpace (s : string) : bool :=
  match s with
  | EmptyString => false
  | String c rest => isSpace c || hasSpace rest
  end.

(** The words [researchWeb] counts: the pieces of the lower-cased query that
    are longer than 2 characters. *)
Definition countedWords (queryLower : string) : list string :=
  filter (fun word => (2 <? String.length word)%nat)
    (splitWhitespace queryLower).

(* ================================================================== *)
(** * Properties *)

(** Runs the monadic plumbing of a method and leaves its pure content. *)
Ltac run_agent :=
  cbv beta iota zeta
    delta [bind ret get put Monad_state MonadState_state runState
           evalState execState setState fst snd].

Lemma run_bind {S A B : Type} (m : state S A) (f : A -> state S B) (s : S) :
  runState (bind m f) s
  = let (a, s') := runState m s in runState (f a) s'.
Proof. reflexivity. Qed.

Lemma run_ret {S A : Type} (a : A) (s : S) :
  runState (ret a : state S A) s = (a, s).
Proof. reflexivity. Qed.

(* ------------------------------------------------------------------ *)
(** ** Facts about [slice(-n)] *)

Lemma sliceLast_length {A : Type} (n : nat) (l : list A) :
  List.length (sliceLast n l) = Nat.min n (List.length l).
Proof.
  unfold sliceLast. rewrite length_skipn. lia.
Qed.

Lemma sliceLast_short {A : Type} (n : nat) (l : list A) :
  List.length l <= n -> sliceLast n l = l.
Proof.
  intros Hle. unfold sliceLast.
  replace (List.length l - n) with 0 by lia. reflexivity.
Qed.

Lemma sliceLast_suffix {A : Type} (n : nat) (l : list A) :
  (firstn (List.length l - n) l ++ sliceLast n l)%list = l.
Proof.
  unfold sliceLast. apply firstn_skipn.
Qed.

(** Trimming an intermediate result does not change what survives a later
    trim to the same size. *)
Lemma sliceLast_app_trimmed {A : Type} (n : nat) (l extra : list A) :
  sliceLast n (sliceLast n l ++ extra) = sliceLast n (l ++ extra).
Proof.
  unfold sliceLast.
  rewrite !skipn_app, !length_app, !length_skipn, skipn_skipn.
  f_equal; f_equal; lia.
Qed.

Lemma sliceLast_nested {A : Type} (m n : nat) (l : list A) :
  m <= n -> sliceLast m (sliceLast n l) = sliceLast m l.
Proof.
  intros Hle. unfold sliceLast.
  rewrite length_skipn, skipn_skipn. f_equal. lia.
Qed.

Lemma sliceLast_last {A : Type} (n : nat) (l : list A) (x d : A) :
  0 < n -> last (sliceLast n (l ++ [x])) d = x.
Proof.
  intros Hn. unfold sliceLast.
  rewrite skipn_app, length_app. simpl.
  replace (List.length l + 1 - n - List.length l) with 0 by lia.
  simpl. apply last_last.
Qed.

(* ------------------------------------------------------------------ *)
(** ** Memory log *)

(** What one call does to the state and what it returns. *)
Lemma saveMemory_run (type : MemoryType) (content freshId now : string)
  (s : AgentState) :
  let item := MemoryItem.mk freshId now type content in
  let kept := sliceLast 50 (memories s ++ [item]) in
  runState (saveMemory type content freshId now) s
  = (sliceLast 5 kept, {| avatar := avatar s; memories := kept |}).
Proof.
  unfold saveMemory. run_agent.
  destruct (Nat.ltb_spec 50 (List.length (memories s ++ [MemoryItem.mk freshId now type content]))) as [Hlt | Hge].
  - reflexivity.
  - rewrite (sliceLast_short 50) by exact Hge. reflexivity.
Qed.

Lemma saveCall_run (c : SaveCall) (s : AgentState) :
  let kept := sliceLast 50 (memories s ++ [itemOf c]) in
  runState (saveCall c) s
  = (sliceLast 5 kept, {| avatar := avatar s; memories := kept |}).
Proof.
  unfold saveCall, itemOf. apply saveMemory_run.
Qed.

(** After a non-empty sequence of calls the log holds the last 50 of the
    items it held at first followed by the items created since. *)
Lemma saveCalls_run (calls : list SaveCall) :
  forall (c : SaveCall) (s : AgentState),
    execState (saveCalls (c :: calls)) s
    = {| avatar := avatar s;
         memories := sliceLast 50 (memories s ++ map itemOf (c :: calls)) |}.
Proof.
  induction calls as [| c' calls IH]; intros c s.
  - unfold execState. cbn [saveCalls].
    rewrite run_bind, saveCall_run, run_ret. reflexivity.
  - unfold execState in *.
    change (saveCalls (c :: c' :: calls))
      with (_ <- saveCall c ;; saveCalls (c' :: calls)).
    rewrite run_bind, saveCall_run. cbv zeta.
    rewrite IH. cbn [avatar memories].
    rewrite sliceLast_app_trimmed, <- app_assoc. reflexivity.
Qed.

(** C1.  Whatever the state was and whatever calls of [saveMemory] came
    before, after a call the log has at most 50 items; it is the end of the
    list of all items in creation order (those of the first state, then the
    ones created by the calls), so that the oldest items are the ones that
    were evicted, the order of the others is kept and the new item is last;
    and the call returns the last 5 items of the log it leaves. *)
Theorem saveMemory_cap_fifo (s : AgentState) (calls : list SaveCall)
  (c : SaveCall) :
  let before := execState (saveCalls calls) s in
  let created := (memories s ++ map itemOf (calls ++ [c]))%list in
  let returned := evalState (saveCall c) before in
  let after := execState (saveCall c) before in
  List.length (memories after) <= 50
  /\ memories after = sliceLast 50 created
  /\ created = (firstn (List.length created - 50) created ++ memories after)%list
  /\ (exists older, memories after = older ++ [itemOf c])%list
  /\ returned = sliceLast 5 (memories after)
  /\ returned = sliceLast 5 created
  /\ avatar after = avatar s.
Proof.
  cbv zeta.
  assert (Hmem : execState (saveCall c) (execState (saveCalls calls) s)
                 = {| avatar := avatar s;
                      memories := sliceLast 50
                        (memories s ++ map itemOf (calls ++ [c])) |}).
  { destruct calls as [| c0 calls].
    - unfold execState. cbn [saveCalls app map].
      rewrite run_ret, saveCall_run. reflexivity.
    - rewrite saveCalls_run. unfold execState. rewrite saveCall_run.
      cbn [snd avatar memories].
      rewrite sliceLast_app_trimmed, <- app_assoc.
      change [itemOf c] with (map itemOf [c]). rewrite <- map_app.
      reflexivity. }
  assert (Hret : evalState (saveCall c) (execState (saveCalls calls) s)
                 = sliceLast 5 (memories
                     (execState (saveCall c) (execState (saveCalls calls) s)))).
  { unfold evalState, execState at 2. rewrite saveCall_run. reflexivity. }
  rewrite Hret, Hmem. cbn [avatar memories].
  repeat split.
  - rewrite sliceLast_length. lia.
  - symmetry. apply sliceLast_suffix.
  - rewrite map_app, app_assoc. cbn [map].
    set (l := (memories s ++ map itemOf calls)%list).
    unfold sliceLast. rewrite skipn_app, length_app. cbn [List.length].
    replace (List.length l + 1 - 50 - List.length l) with 0 by lia.
    cbn [skipn]. eauto.
  - apply sliceLast_nested. lia.
Qed.

(** From the empty log, 51 calls leave the items of the last 50 and return
    those of the last 5. *)
Example saveMemory_51_calls :
  let calls := map (fun n => mkSaveCall note "remember"
                               (String (ascii_of_nat n) EmptyString) "t")
                   (seq 0 51) in
  memories (execState (saveCalls calls) initialState)
  = map itemOf (skipn 1 calls)
  /\ evalState (saveCall (mkSaveCall task "new" "id" "t"))
       (execState (saveCalls calls) initialState)
     = (map itemOf (skipn 47 calls)
        ++ [itemOf (mkSaveCall task "new" "id" "t")])%list.
Proof.
  vm_compute. split; reflexivity.
Qed.

(* ------------------------------------------------------------------ *)
(** ** Avatar profile *)

Lemma orStr_truthy (a : option string) (b : string) :
  truthy b = true -> truthy (orStr a b) = true.
Proof.
  intros Hb. destruct a as [x |]; cbn; [| exact Hb].
  destruct (truthy x) eqn:Hx; [exact Hx | exact Hb].
Qed.

Lemma orStr_keeps (x b : string) :
  truthy x = true -> orStr (Some x) b = x.
Proof.
  intros Hx. cbn. rewrite Hx. reflexivity.
Qed.

(** What one save does to the state and what it returns. *)
Lemma saveAvatarProfile_run (p : PartialAvatar.t) (freshId : string)
  (s : AgentState) :
  runState (saveAvatarProfile p freshId) s
  = (evalState (saveAvatarProfile p freshId) s,
     {| avatar := Some (evalState (saveAvatarProfile p freshId) s);
        memories := memories s |}).
Proof. reflexivity. Qed.

(** An avatar with an empty display name: [saveAvatarProfile({})] replaces
    the name by the default, so the save does not leave every existing field
    as it was. *)
Lemma saveAvatarProfile_empty_name_counterexample :
  ~ (forall (s : AgentState) (av : AvatarProfile.t) (freshId : string),
       avatar s = Some av ->
       evalState (saveAvatarProfile PartialAvatar.empty freshId) s = av).
Proof.
  intros H.
  specialize (H {| avatar := Some (AvatarProfile.mk "a1" EmptyString "bio"
                                     technical ["rocq"]);
                   memories := [] |}
                (AvatarProfile.mk "a1" EmptyString "bio" technical ["rocq"])
                "fresh" eq_refl).
  vm_compute in H. discriminate H.
Qed.

(** C2, as the code has it.  Every [||] of the merge takes the first truthy
    operand, and the empty string is falsy.  So a field left out of the
    update keeps the value of the stored avatar, except that an empty stored
    display name falls back to the default name and an empty stored id is
    replaced by a fresh one; without a stored avatar the fields left out get
    the defaults, and the id is the fresh one.  A supplied field replaces the
    stored value (a supplied string only when it is not empty).  In
    particular [{}] leaves an avatar with a non-empty id and name as it is,
    [{tone: playful}] without a stored avatar gives the default avatar with
    that tone, and once a save has used a non-empty id no later save changes
    it. *)
Theorem saveAvatarProfile_merge (s : AgentState) (p : PartialAvatar.t)
  (freshId : string) :
  let updated := evalState (saveAvatarProfile p freshId) s in
  let after := execState (saveAvatarProfile p freshId) s in
  after = {| avatar := Some updated; memories := memories s |}
  /\ (forall av, avatar s = Some av ->
        (truthy (AvatarProfile.id av) = true ->
         AvatarProfile.id updated = AvatarProfile.id av)
        /\ (truthy (AvatarProfile.id av) = false ->
            AvatarProfile.id updated = freshId)
        /\ (PartialAvatar.displayName p = None ->
            truthy (AvatarProfile.displayName av) = true ->
            AvatarProfile.displayName updated = AvatarProfile.displayName av)
        /\ (PartialAvatar.displayName p = None ->
            truthy (AvatarProfile.displayName av) = false ->
            AvatarProfile.displayName updated = "Unnamed Avatar")
        /\ (PartialAvatar.bio p = None ->
            AvatarProfile.bio updated = AvatarProfile.bio av)
        /\ (PartialAvatar.tone p = None ->
            AvatarProfile.tone updated = AvatarProfile.tone av)
        /\ (PartialAvatar.expertiseTags p = None ->
            AvatarProfile.expertiseTags updated
            = AvatarProfile.expertiseTags av)
        /\ (truthy (AvatarProfile.id av) = true ->
            truthy (AvatarProfile.displayName av) = true ->
            evalState (saveAvatarProfile PartialAvatar.empty freshId) s = av))
  /\ (avatar s = None ->
        AvatarProfile.id updated = freshId
        /\ (PartialAvatar.displayName p = None ->
            AvatarProfile.displayName updated = "Unnamed Avatar")
        /\ (PartialAvatar.bio p = None ->
            AvatarProfile.bio updated = EmptyString)
        /\ (PartialAvatar.tone p = None ->
            AvatarProfile.tone updated = casual)
        /\ (PartialAvatar.expertiseTags p = None ->
            AvatarProfile.expertiseTags updated = [])
        /\ evalState
             (saveAvatarProfile
                (PartialAvatar.mk None None None (Some playful) None) freshId) s
           = AvatarProfile.mk freshId "Unnamed Avatar" EmptyString playful [])
  /\ (forall name, PartialAvatar.displayName p = Some name ->
        truthy name = true -> AvatarProfile.displayName updated = name)
  /\ (forall text, PartialAvatar.bio p = Some text ->
        truthy text = true -> AvatarProfile.bio updated = text)
  /\ (forall t, PartialAvatar.tone p = Some t ->
        AvatarProfile.tone updated = t)
  /\ (forall tags, PartialAvatar.expertiseTags p = Some tags ->
        AvatarProfile.expertiseTags updated = tags)
  /\ (truthy freshId = true ->
      forall (p' : PartialAvatar.t) (freshId' : string),
        AvatarProfile.id (evalState (saveAvatarProfile p' freshId') after)
        = AvatarProfile.id updated).
Proof.
  cbv zeta. unfold execState. rewrite saveAvatarProfile_run. cbn [snd].
  destruct s as [cur mems], p as [pid pname pbio ptone ptags].
  unfold evalState, saveAvatarProfile. run_agent.
  cbn [avatar memories option_map PartialAvatar.displayName PartialAvatar.bio
       PartialAvatar.tone PartialAvatar.expertiseTags PartialAvatar.empty
       AvatarProfile.id AvatarProfile.displayName AvatarProfile.bio
       AvatarProfile.tone AvatarProfile.expertiseTags orElse].
  split; [reflexivity |].
  split.
  { intros av Hav. subst cur. destruct av as [aid aname abio atone atags].
    cbn [option_map AvatarProfile.id AvatarProfile.displayName
         AvatarProfile.bio AvatarProfile.tone AvatarProfile.expertiseTags
         orElse].
    repeat split.
    - intros Hid. apply orStr_keeps, Hid.
    - intros Hid. cbn. rewrite Hid. reflexivity.
    - intros -> Hname. cbn. rewrite Hname. reflexivity.
    - intros -> Hname. cbn. rewrite Hname. reflexivity.
    - intros ->. cbn. destruct abio; reflexivity.
    - intros ->. reflexivity.
    - intros ->. reflexivity.
    - intros Hid Hname. cbn. rewrite Hid, Hname.
      destruct abio; reflexivity. }
  split.
  { intros ->. cbn [option_map orElse].
    repeat split; try (intros ->; reflexivity). }
  split.
  { intros name [= ->] Hname. apply orStr_keeps, Hname. }
  split.
  { intros text [= ->] Htext. apply orStr_keeps, Htext. }
  split.
  { intros t [= ->]. reflexivity. }
  split.
  { intros tags [= ->]. reflexivity. }
  intros Hfresh p' freshId'.
  apply orStr_keeps, orStr_truthy, Hfresh.
Qed.

(** An instance of the merge: a stored avatar, an update that only sets the
    tone. *)
Lemma saveAvatarProfile_merge_witness :
  let av := AvatarProfile.mk "a1" "Ann" "Writes proofs" professional ["rocq"] in
  let s := {| avatar := Some av; memories := [] |} in
  let p := PartialAvatar.mk None None None (Some playful) None in
  evalState (saveAvatarProfile p "f1") s
  = AvatarProfile.mk "a1" "Ann" "Writes proofs" playful ["rocq"]
  /\ AvatarProfile.id (evalState (saveAvatarProfile p "f1") s) = "a1"
  /\ AvatarProfile.displayName (evalState (saveAvatarProfile p "f1") s) = "Ann"
  /\ evalState (saveAvatarProfile PartialAvatar.empty "f1") s = av.
Proof.
  cbv zeta.
  pose proof (saveAvatarProfile_merge
                {| avatar := Some (AvatarProfile.mk "a1" "Ann" "Writes proofs"
                                     professional ["rocq"]);
                   memories := [] |}
                (PartialAvatar.mk None None None (Some playful) None) "f1")
    as H.
  cbv zeta in H. destruct H as (_ & Hstored & _).
  destruct (Hstored _ eq_refl)
    as (Hid & _ & Hname & _ & _ & _ & _ & Hempty).
  split; [reflexivity |].
  split; [exact (Hid eq_refl) |].
  split; [exact (Hname eq_refl eq_refl) |].
  exact (Hempty eq_refl eq_refl).
Defined.

(* ------------------------------------------------------------------ *)
(** ** Start-up check *)

(** A stored object with an avatar and a [memories] property that is a
    string: [onStart] keeps the avatar, so the state is not reset to
    [{avatar: undefined, memories: []}]. *)
Lemma onStart_keeps_avatar_counterexample :
  ~ (forall v : Slot,
       memoriesIsArray v = false ->
       execState onStart v = SObject None (MArray [])).
Proof.
  intros H.
  specialize (H (SObject (Some (AvatarProfile.mk "a1" "Ann" EmptyString
                                  casual []))
                   (MPrim (PStr "not an array"))) eq_refl).
  vm_compute in H. discriminate H.
Qed.

(** C4, as the code has it.  After [onStart] the slot always holds a
    well-formed state.  A slot that is absent or not an object is reset to
    [{avatar: undefined, memories: []}]; an object whose [memories] is not an
    array only gets [memories: []] and keeps its avatar (so it becomes
    [{avatar: undefined, memories: []}] when it had none); a well-formed
    state is left as it is. *)
Theorem onStart_self_heal (v : Slot) :
  let v' := execState onStart v in
  (exists st, slotState v' = Some st)
  /\ (slotFalsy v || negb (typeofObject v) = true ->
      v' = SObject None (MArray []))
  /\ (forall av mems, v = SObject av mems -> memoriesIsArray v = false ->
      v' = SObject av (MArray []))
  /\ (forall mems, v = SObject None mems -> memoriesIsArray v = false ->
      slotState v' = Some initialState)
  /\ (forall st, slotState v = Some st -> v' = v).
Proof.
  cbv zeta.
  destruct v as [| | [n | str | b] | av [items | | prim]];
    unfold execState, onStart; run_agent;
    cbn [slotFalsy typeofObject memoriesIsArray withEmptyMemories negb orb
         slotState];
    rewrite ?orb_true_r; cbn [negb slotState memoriesIsArray];
    (split; [eexists; reflexivity |]);
    (split; [first [ reflexivity | discriminate | intros _; reflexivity ] |]);
    (split; [intros av' mems' Heq Harr;
             first [ discriminate Heq | discriminate Harr
                   | injection Heq as <- _; reflexivity ] |]);
    (split; [intros mems' Heq Harr;
             first [ discriminate Heq | discriminate Harr
                   | injection Heq as -> _; reflexivity ] |]);
    intros st Hst; first [ discriminate Hst | reflexivity ].
Qed.

(** The two cases of the spec: the slot is [null], and the slot is
    [{memories: "not an array"}]. *)
Lemma onStart_self_heal_witness :
  execState onStart SNull = SObject None (MArray [])
  /\ execState onStart (SObject None (MPrim (PStr "not an array")))
     = SObject None (MArray [])
  /\ slotState (execState onStart (SObject None (MPrim (PStr "not an array"))))
     = Some initialState.
Proof.
  split.
  - destruct (onStart_self_heal SNull) as (_ & Hreset & _).
    exact (Hreset eq_refl).
  - destruct (onStart_self_heal
                (SObject None (MPrim (PStr "not an array"))))
      as (_ & _ & Hkeep & Hinit & _).
    split.
    + exact (Hkeep None _ eq_refl eq_refl).
    + exact (Hinit _ eq_refl eq_refl).
Defined.

(* ------------------------------------------------------------------ *)
(** ** Reading the state *)

Lemma jsonOfState_has_memories (s : AgentState) :
  exists fields, jsonOfState s = JObj fields /\ In "memories" (map fst fields).
Proof.
  unfold jsonOfState. eexists. split; [reflexivity |].
  rewrite map_app, in_app_iff. right. left. reflexivity.
Qed.

(** C6.  [getAvatarState] returns the avatar with the last 5 memories and
    leaves the state as it is, full log included.  The endpoint
    [/api/avatar-state] does not call it: for every state it answers with the
    same message object, which is never the JSON form of that view. *)
Theorem avatar_state_endpoint_ignores_state (s : AgentState)
  (routed : option Response) :
  runState getAvatarState s
  = ({| avatar := avatar s; memories := sliceLast 5 (memories s) |}, s)
  /\ List.length (memories (evalState getAvatarState s)) <= 5
  /\ fetch "/api/avatar-state" routed
     = jsonResponse
         (JObj [("message",
                 JStr "Use WebSocket connection to access avatar state")])
  /\ body (fetch "/api/avatar-state" routed)
     <> BJson (jsonOfState (evalState getAvatarState s)).
Proof.
  split; [reflexivity |].
  split.
  { unfold evalState, getAvatarState. run_agent. cbn [memories].
    rewrite sliceLast_length. lia. }
  split; [reflexivity |].
  destruct (jsonOfState_has_memories (evalState getAvatarState s))
    as (fields & Hjson & Hin).
  rewrite Hjson. cbn. intros [= <-].
  cbn in Hin. destruct Hin as [Hin | []]. discriminate Hin.
Qed.

(* ------------------------------------------------------------------ *)
(** ** String operations *)

Lemma prefix_append (sub : string) :
  forall s : string,
    prefix sub s = true <-> exists rest, s = sub ++ rest.
Proof.
  induction sub as [| a sub IH]; intros s.
  - split; [intros _; exists s; reflexivity |].
    intros _. destruct s; reflexivity.
  - destruct s as [| b s]; cbn [prefix].
    + split; [discriminate | intros (rest & Heq); discriminate Heq].
    + destruct (ascii_dec a b) as [-> | Hne].
      * rewrite IH. split; intros (rest & Heq); exists rest.
        -- cbn. rewrite Heq. reflexivity.
        -- cbn in Heq. injection Heq as Heq. exact Heq.
      * split; [discriminate |].
        intros (rest & Heq). cbn in Heq. injection Heq as Hab _.
        congruence.
Qed.

(** [includes] is the substring test. *)
Lemma includes_occurs (s sub : string) :
  includes s sub = true <-> exists before rest, s = before ++ sub ++ rest.
Proof.
  induction s as [| c s IH]; cbn [includes]; rewrite orb_true_iff.
  - rewrite prefix_append. split.
    + intros [(rest & Heq) | Hfalse]; [| discriminate Hfalse].
      exists EmptyString, rest. exact Heq.
    + intros (before & rest & Heq). left. exists rest.
      destruct before; [exact Heq | discriminate Heq].
  - rewrite prefix_append, IH. split.
    + intros [(rest & Heq) | (before & rest & Heq)].
      * exists EmptyString, rest. exact Heq.
      * exists (String c before), rest. cbn. rewrite Heq. reflexivity.
    + intros (before & rest & Heq). destruct before as [| c' before].
      * left. exists rest. exact Heq.
      * right. cbn in Heq. injection Heq as _ Heq.
        exists before, rest. exact Heq.
Qed.

(** Every string contains the empty string. *)
Lemma includes_empty (s : string) : includes s EmptyString = true.
Proof.
  apply includes_occurs. exists EmptyString, s. reflexivity.
Qed.

Example toLowerCase_sample :
  toLowerCase "How do MEMORIES work? [A-Z]" = "how do memories work? [a-z]".
Proof. reflexivity. Qed.

(** The pieces of a split: runs of white space separate, white space at
    either end leaves an empty piece there, and the empty string is one
    empty piece. *)
Example splitWhitespace_samples :
  splitWhitespace "how  do memories" = ["how"; "do"; "memories"]
  /\ splitWhitespace " tone " = [EmptyString; "tone"; EmptyString]
  /\ splitWhitespace EmptyString = [EmptyString]
  /\ splitWhitespace (String (ascii_of_nat 9) "a" ++ nl ++ "b")
     = [EmptyString; "a"; "b"].
Proof. repeat split; reflexivity. Qed.

(* ------------------------------------------------------------------ *)
(** ** Document matcher *)

Lemma scoreWords_sum (key contentLower : string) (words : list string) :
  forall score : Z,
    fold_left (scoreWord key contentLower) words score
    = (score
       + sumZ (map (specTokenScore key contentLower)
                 (filter (fun token => (2 <? String.length token)%nat) words)))%Z.
Proof.
  induction words as [| w words IH]; intros score; cbn [fold_left filter].
  - cbn. lia.
  - rewrite IH. unfold scoreWord at 1.
    destruct (2 <? String.length w)%nat; [| reflexivity].
    unfold sumZ. cbn [map fold_right].
    set (others := fold_right Z.add 0%Z _).
    unfold specTokenScore.
    destruct (includes key w), (includes contentLower w); lia.
Qed.

Lemma scoreDoc_spec (queryLower key : string) (doc : Doc) :
  scoreDoc queryLower key doc = specScore queryLower key doc.
Proof.
  unfold scoreDoc, specScore. cbv zeta. rewrite scoreWords_sum.
  destruct (includes queryLower key),
    (includes (toLowerCase (title doc)) queryLower),
    (includes (toLowerCase (content doc)) queryLower); lia.
Qed.

Lemma scanEntry_step (queryLower : string) (best : option Doc) (score : Z)
  (entry : string * Doc) :
  scanEntry queryLower (best, score) entry
  = if (score <? entryScore queryLower entry)%Z
    then (Some (snd entry), entryScore queryLower entry)
    else (best, score).
Proof.
  destruct entry as [key doc]. reflexivity.
Qed.

(** Entries that do not score more than the best so far change nothing. *)
Lemma scan_no_better (queryLower : string) (docs : list (string * Doc)) :
  forall (best : option Doc) (score : Z),
    Forall (fun e => entryScore queryLower e <= score)%Z docs ->
    fold_left (scanEntry queryLower) docs (best, score) = (best, score).
Proof.
  induction docs as [| e docs IH]; intros best score Hall; [reflexivity |].
  inversion Hall as [| ? ? He Hrest]; subst.
  cbn [fold_left]. rewrite scanEntry_step.
  destruct (Z.ltb_spec score (entryScore queryLower e)); [lia |].
  apply IH, Hrest.
Qed.

(** The loop stops on the first entry that reaches the maximum, when that
    entry beats the score the loop started with. *)
Lemma scan_first_maximum (queryLower : string)
  (before : list (string * Doc)) (entry : string * Doc)
  (after : list (string * Doc)) :
  Forall (fun e => entryScore queryLower e < entryScore queryLower entry)%Z
    before ->
  Forall (fun e => entryScore queryLower e <= entryScore queryLower entry)%Z
    after ->
  forall (best : option Doc) (score : Z),
    (score < entryScore queryLower entry)%Z ->
    fold_left (scanEntry queryLower) (before ++ entry :: after) (best, score)
    = (Some (snd entry), entryScore queryLower entry).
Proof.
  intros Hbefore Hafter.
  induction Hbefore as [| e before He Hbefore IH]; intros best score Hlt.
  - cbn [app fold_left]. rewrite scanEntry_step.
    destruct (Z.ltb_spec score (entryScore queryLower entry)); [| lia].
    apply scan_no_better, Hafter.
  - cbn [app fold_left]. rewrite scanEntry_step.
    destruct (Z.ltb_spec score (entryScore queryLower e)).
    + apply IH. exact He.
    + apply IH. exact Hlt.
Qed.

(** The score the loop ends with is the start score or the score of an
    entry. *)
Lemma scan_score_origin (queryLower : string) (docs : list (string * Doc)) :
  forall (best : option Doc) (score : Z),
    let final := fold_left (scanEntry queryLower) docs (best, score) in
    final = (best, score)
    \/ exists e, In e docs /\ final = (Some (snd e), entryScore queryLower e).
Proof.
  induction docs as [| e docs IH]; intros best score; [left; reflexivity |].
  cbn [fold_left]. rewrite scanEntry_step.
  destruct (Z.ltb_spec score (entryScore queryLower e)) as [Hlt | Hge].
  - destruct (IH (Some (snd e)) (entryScore queryLower e))
      as [Heq | (e' & Hin & Heq)].
    + right. exists e. split; [left; reflexivity | exact Heq].
    + right. exists e'. split; [right; exact Hin | exact Heq].
  - destruct (IH best score) as [Heq | (e' & Hin & Heq)].
    + left. exact Heq.
    + right. exists e'. split; [right; exact Hin | exact Heq].
Qed.

(** A catalog that is not empty has a first entry of maximum score. *)
Lemma firstMaximum_exists (queryLower : string) (docs : list (string * Doc)) :
  docs <> [] ->
  exists before entry after, firstMaximum queryLower docs before entry after.
Proof.
  induction docs as [| e docs IH]; intros Hne; [congruence |].
  destruct docs as [| e' docs].
  - exists [], e, []. repeat split; constructor.
  - destruct IH as (before & entry & after & Heq & Hbefore & Hafter);
      [discriminate |].
    destruct (Z.ltb_spec (entryScore queryLower e)
                (entryScore queryLower entry)) as [Hlt | Hge].
    + exists (e :: before), entry, after. repeat split.
      * rewrite Heq. reflexivity.
      * constructor; assumption.
      * exact Hafter.
    + exists [], e, (e' :: docs). repeat split; [constructor |].
      rewrite Heq. apply Forall_app. split.
      * eapply Forall_impl; [| exact Hbefore]. cbv beta. intros; lia.
      * constructor; [exact Hge |].
        eapply Forall_impl; [| exact Hafter]. cbv beta. intros; lia.
Qed.

Lemma researchDocs_unfold (docs : list (string * Doc)) (query : string) :
  researchDocs docs query
  = let final := fold_left (scanEntry (toLowerCase query)) docs (None, 0%Z) in
    option_map (renderResult query)
      (if isNull (fst final) || (snd final <? 2)%Z
       then lookupDoc "getting_started" docs
       else fst final).
Proof.
  unfold researchDocs. cbv zeta.
  destruct (fold_left (scanEntry (toLowerCase query)) docs (None, 0%Z)).
  reflexivity.
Qed.

Lemma lookupDoc_In (key : string) (docs : list (string * Doc)) (d : Doc) :
  lookupDoc key docs = Some d -> In (key, d) docs.
Proof.
  induction docs as [| [k d'] docs IH]; cbn [lookupDoc]; [discriminate |].
  destruct (String.eqb_spec k key) as [-> | Hne].
  - intros [= ->]. left. reflexivity.
  - intros H. right. apply IH, H.
Qed.

(** The result is always the rendering of an entry of the catalog. *)
Lemma researchDocs_percifyDocs (query : string) :
  exists entry,
    In entry percifyDocs
    /\ researchDocs percifyDocs query = Some (renderResult query (snd entry)).
Proof.
  rewrite researchDocs_unfold. cbv zeta.
  assert (Hdefault : lookupDoc "getting_started" percifyDocs
                     = Some doc_getting_started) by reflexivity.
  destruct (scan_score_origin (toLowerCase query) percifyDocs None 0%Z)
    as [Heq | (e & Hin & Heq)]; cbv zeta in Heq; rewrite Heq; cbn [fst snd].
  - cbn [isNull orb]. rewrite Hdefault.
    exists ("getting_started", doc_getting_started).
    split; [apply lookupDoc_In, Hdefault | reflexivity].
  - cbn [isNull orb].
    destruct (entryScore (toLowerCase query) e <? 2)%Z.
    + rewrite Hdefault. exists ("getting_started", doc_getting_started).
      split; [apply lookupDoc_In, Hdefault | reflexivity].
    + exists e. split; [exact Hin | reflexivity].
Qed.

(** C3.  The score of an entry is the sum the specification gives: 10 when
    the lower-cased query contains the key, 5 when the lower-cased title
    contains the query, 3 when the lower-cased content contains the query,
    and for every token of the query of length above 2 (the query split on
    white space) 2 when the key contains the token and 1 when the lower-cased
    content contains it.  When no entry scores 2 or more the result is the
    [getting_started] entry; otherwise it is the first entry of the catalog
    that reaches the maximum score, and such an entry exists. *)
Theorem researchWeb_scoring (docs : list (string * Doc)) (query : string) :
  let queryLower := toLowerCase query in
  (forall key doc, scoreDoc queryLower key doc = specScore queryLower key doc)
  /\ (Forall (fun e => entryScore queryLower e < 2)%Z docs ->
      researchDocs docs query
      = option_map (renderResult query) (lookupDoc "getting_started" docs))
  /\ (forall before entry after,
        firstMaximum queryLower docs before entry after ->
        (2 <= entryScore queryLower entry)%Z ->
        researchDocs docs query = Some (renderResult query (snd entry)))
  /\ (Exists (fun e => 2 <= entryScore queryLower e)%Z docs ->
      exists before entry after,
        firstMaximum queryLower docs before entry after
        /\ (2 <= entryScore queryLower entry)%Z)
  /\ (forall s : AgentState,
        runState (researchWeb query) s = (researchDocs percifyDocs query, s))
  /\ lookupDoc "getting_started" percifyDocs = Some doc_getting_started.
Proof.
  cbv zeta. split; [intros key doc; apply scoreDoc_spec |].
  split.
  { intros Hlow. rewrite researchDocs_unfold. cbv zeta.
    destruct (scan_score_origin (toLowerCase query) docs None 0%Z)
      as [Heq | (e & Hin & Heq)]; cbv zeta in Heq; rewrite Heq; cbn [fst snd].
    - reflexivity.
    - rewrite Forall_forall in Hlow. specialize (Hlow e Hin).
      destruct (Z.ltb_spec (entryScore (toLowerCase query) e) 2); [| lia].
      reflexivity. }
  split.
  { intros before entry after (Hdocs & Hbefore & Hafter) Hgood.
    rewrite researchDocs_unfold. cbv zeta. rewrite Hdocs.
    rewrite (scan_first_maximum _ _ _ _ Hbefore Hafter) by lia.
    cbn [fst snd isNull orb].
    destruct (Z.ltb_spec (entryScore (toLowerCase query) entry) 2); [lia |].
    reflexivity. }
  split.
  { intros Hgood.
    destruct (firstMaximum_exists (toLowerCase query) docs)
      as (before & entry & after & Hmax).
    { intros ->. inversion Hgood. }
    exists before, entry, after. split; [exact Hmax |].
    destruct Hmax as (Hdocs & Hbefore & Hafter).
    apply Exists_exists in Hgood. destruct Hgood as (e & Hin & He).
    rewrite Hdocs in Hin. apply in_app_or in Hin.
    rewrite Forall_forall in Hbefore, Hafter.
    destruct Hin as [Hin | [<- | Hin]].
    - specialize (Hbefore e Hin). cbv beta in Hbefore. lia.
    - exact He.
    - specialize (Hafter e Hin). cbv beta in Hafter. lia. }
  split; reflexivity.
Qed.

(** Two queries on the catalog of the agent: [tone] is won by the third
    entry, whose key it contains, and [zz] matches nothing and falls back. *)
Lemma researchWeb_scoring_witness :
  researchDocs percifyDocs "tone" = Some (renderResult "tone" doc_tone)
  /\ researchDocs percifyDocs "zz"
     = Some (renderResult "zz" doc_getting_started).
Proof.
  split.
  - destruct (researchWeb_scoring percifyDocs "tone")
      as (_ & _ & Hfirst & _).
    apply (Hfirst [("avatar", doc_avatar); ("memory", doc_memory)]
             ("tone", doc_tone)
             (skipn 3 percifyDocs)).
    + split; [reflexivity |].
      split; repeat constructor; vm_compute; congruence.
    + vm_compute. congruence.
  - destruct (researchWeb_scoring percifyDocs "zz") as (_ & Hlow & _).
    apply Hlow. repeat constructor; vm_compute; reflexivity.
Defined.

(** C10.  For the empty query every entry scores 8: its lower-cased title
    and content contain the empty string, no key is contained in it, and the
    split gives one empty token, which is too short to count.  The first
    entry of the catalog wins, so the result is the avatar guide and not the
    [getting_started] entry. *)
Theorem researchWeb_empty_query (s : AgentState) :
  map (entryScore (toLowerCase EmptyString)) percifyDocs = repeat 8%Z 10
  /\ splitWhitespace (toLowerCase EmptyString) = [EmptyString]
  /\ hd_error percifyDocs = Some ("avatar", doc_avatar)
  /\ runState (researchWeb EmptyString) s
     = (Some (renderResult EmptyString doc_avatar), s)
  /\ title doc_avatar = "Avatar Setup Guide"
  /\ sourceUrl (renderResult EmptyString doc_avatar)
     = "https://docs.percify.io/docs/avatar-guide"
  /\ renderResult EmptyString doc_avatar
     <> renderResult EmptyString doc_getting_started.
Proof.
  split; [vm_compute; reflexivity |].
  split; [reflexivity |].
  split; [reflexivity |].
  split.
  { unfold researchWeb. rewrite run_ret. vm_compute. reflexivity. }
  split; [reflexivity |].
  split; [vm_compute; reflexivity |].
  intros H. apply (f_equal sourceUrl) in H. vm_compute in H. discriminate H.
Qed.

(** C7.  [researchWeb] answers from the query and the catalog alone: its
    result is the same in every state of the agent, it leaves the state as it
    is, two calls in a row give the same result twice, and a save between two
    calls does not change the answer.  The result carries the query and the
    rendering of one entry of the catalog. *)
Theorem researchWeb_pure (query : string) (s1 s2 : AgentState)
  (c : SaveCall) (p : PartialAvatar.t) (freshId : string) :
  evalState (researchWeb query) s1 = evalState (researchWeb query) s2
  /\ execState (researchWeb query) s1 = s1
  /\ runState (r1 <- researchWeb query ;;
               r2 <- researchWeb query ;;
               ret (r1, r2)) s1
     = ((researchDocs percifyDocs query, researchDocs percifyDocs query), s1)
  /\ evalState (_ <- saveCall c ;; researchWeb query) s1
     = evalState (researchWeb query) s1
  /\ evalState (_ <- saveAvatarProfile p freshId ;; researchWeb query) s1
     = evalState (researchWeb query) s1
  /\ (exists entry,
        In entry percifyDocs
        /\ evalState (researchWeb query) s1
           = Some {| query := query;
                     snippet := snippet (renderResult query (snd entry));
                     sourceUrl := baseUrl ++ path (snd entry) |}).
Proof.
  split; [reflexivity |].
  split; [reflexivity |].
  split; [reflexivity |].
  split.
  { unfold evalState. rewrite run_bind, saveCall_run; reflexivity. }
  split.
  { unfold evalState at 1. rewrite run_bind, saveAvatarProfile_run;
      reflexivity. }
  destruct (researchDocs_percifyDocs query) as (entry & Hin & Hres).
  exists entry. split; [exact Hin |].
  unfold evalState, researchWeb. rewrite run_ret. cbn [fst].
  rewrite Hres. reflexivity.
Qed.

(* ------------------------------------------------------------------ *)
(** ** Context builder *)

Lemma append_assoc (a b c : string) : (a ++ b) ++ c = a ++ (b ++ c).
Proof.
  induction a as [| ch a IH]; cbn; [reflexivity | rewrite IH; reflexivity].
Qed.

Lemma append_empty_r (a : string) : a ++ EmptyString = a.
Proof.
  induction a as [| ch a IH]; cbn; [reflexivity | rewrite IH; reflexivity].
Qed.

Lemma join_empty_cons (x : string) (l : list string) :
  join EmptyString (x :: l) = x ++ join EmptyString l.
Proof.
  destruct l as [| y l]; cbn [join].
  - rewrite append_empty_r. reflexivity.
  - reflexivity.
Qed.

(** The loop over the recent memories appends their lines in order. *)
Lemma memory_lines_fold (line : MemoryItem.t -> string)
  (mems : list MemoryItem.t) :
  forall context : string,
    fold_left (fun context mem => context ++ line mem) mems context
    = context ++ join EmptyString (map line mems).
Proof.
  induction mems as [| m mems IH]; intros context.
  - cbn. rewrite append_empty_r. reflexivity.
  - cbn [fold_left map]. rewrite IH, join_empty_cons, append_assoc.
    reflexivity.
Qed.

Lemma sliceLast_nil_iff {A : Type} (n : nat) (l : list A) :
  0 < n -> (sliceLast n l = [] <-> l = []).
Proof.
  intros Hn. split.
  - intros H. apply (f_equal (@List.length A)) in H.
    rewrite sliceLast_length in H. cbn in H.
    destruct l; [reflexivity | cbn in H; lia].
  - intros ->. reflexivity.
Qed.

(** The context string is made from the avatar and the last three memories
    only. *)
Lemma buildContextString_run (toLocaleDateString : string -> string)
  (s : AgentState) :
  runState (buildContextString toLocaleDateString) s
  = ((("## Current Avatar State" ++ nl) ++ avatarLines (avatar s))
     ++ nl ++ "## Recent Memories" ++ nl
     ++ match sliceLast 3 (memories s) with
        | [] => "- No memories stored yet." ++ nl
        | recent =>
            join EmptyString (map (memoryLine toLocaleDateString) recent)
        end, s).
Proof.
  unfold buildContextString. run_agent. f_equal.
  destruct (sliceLast 3 (memories s)) as [| m recent] eqn:Hrecent.
  - cbn [List.length Nat.ltb Nat.leb]. rewrite !append_assoc. reflexivity.
  - cbn [List.length Nat.ltb Nat.leb].
    rewrite memory_lines_fold, !append_assoc. reflexivity.
Qed.

(** C8.  The prompt is assembled from the state, the schedule prompt and
    the date renderer of the host; building it does not change the state.
    It is the fixed text with the directive of the avatar's tone ([casual]
    without an avatar), the schedule prompt, and at its end the context
    block: name, bio ([Not set] when empty), tone and expertise tags ([None
    specified] when there are none) of the avatar, or one line saying that
    no avatar is set, followed by one line for each of the last three
    memories with its type, content and rendered date, or by one line saying
    that no memories are stored.  Two states with the same avatar and the
    same last three memories give the same prompt. *)
Theorem getSystemPrompt_assembly (toLocaleDateString : string -> string)
  (schedulePrompt : string) (s : AgentState) :
  let prompt :=
    evalState (getSystemPrompt toLocaleDateString schedulePrompt) s in
  let context := evalState (buildContextString toLocaleDateString) s in
  let tone :=
    match avatar s with
    | Some a => AvatarProfile.tone a
    | None => casual
    end in
  let recent := sliceLast 3 (memories s) in
  execState (getSystemPrompt toLocaleDateString schedulePrompt) s = s
  /\ prompt
     = promptHead ++ toneName tone ++ "): " ++ toneInstructions tone
       ++ promptMiddle ++ schedulePrompt ++ nl ++ nl ++ context
  /\ context
     = "## Current Avatar State" ++ nl
       ++ match avatar s with
          | Some a =>
              "- Name: " ++ AvatarProfile.displayName a ++ nl
              ++ "- Bio: "
              ++ (if truthy (AvatarProfile.bio a)
                  then AvatarProfile.bio a else "Not set") ++ nl
              ++ "- Tone: " ++ toneName (AvatarProfile.tone a) ++ nl
              ++ "- Expertise: "
              ++ match AvatarProfile.expertiseTags a with
                 | [] => "None specified"
                 | tags => join ", " tags
                 end ++ nl
          | None =>
              "- No avatar profile set yet. The user can create one." ++ nl
          end
       ++ nl ++ "## Recent Memories" ++ nl
       ++ match memories s with
          | [] => "- No memories stored yet." ++ nl
          | _ => join EmptyString (map (memoryLine toLocaleDateString) recent)
          end
  /\ (forall mem,
        memoryLine toLocaleDateString mem
        = "- [" ++ memoryTypeName (MemoryItem.type mem) ++ "] "
          ++ MemoryItem.content mem
          ++ " (" ++ toLocaleDateString (MemoryItem.createdAt mem) ++ ")" ++ nl)
  /\ List.length recent = Nat.min 3 (List.length (memories s))
  /\ (exists older, memories s = older ++ recent)%list
  /\ (forall s' : AgentState,
        avatar s' = avatar s ->
        sliceLast 3 (memories s') = sliceLast 3 (memories s) ->
        evalState (getSystemPrompt toLocaleDateString schedulePrompt) s'
        = prompt).
Proof.
  cbv zeta.
  assert (Hrun : forall st,
             runState (getSystemPrompt toLocaleDateString schedulePrompt) st
             = (promptHead
                ++ toneName (orElse (option_map AvatarProfile.tone (avatar st))
                               casual)
                ++ "): "
                ++ toneInstructions
                     (orElse (option_map AvatarProfile.tone (avatar st)) casual)
                ++ promptMiddle ++ schedulePrompt ++ nl ++ nl
                ++ evalState (buildContextString toLocaleDateString) st, st)).
  { intros st. unfold getSystemPrompt, evalState.
    rewrite run_bind. cbn [get MonadState_state runState].
    rewrite run_bind, buildContextString_run, run_ret. reflexivity. }
  split; [unfold execState; rewrite Hrun; reflexivity |].
  split.
  { unfold evalState at 1. rewrite Hrun. cbn [fst].
    destruct (avatar s); reflexivity. }
  split.
  { unfold evalState. rewrite buildContextString_run. cbn [fst].
    rewrite !append_assoc. do 2 f_equal. f_equal.
    - destruct (avatar s) as [a |]; [| reflexivity].
      unfold avatarLines. cbn [orStr].
      destruct (AvatarProfile.expertiseTags a); reflexivity.
    - do 3 f_equal.
      destruct (memories s) as [| m mems] eqn:Hmems; [reflexivity |].
      destruct (sliceLast 3 (m :: mems)) eqn:Hrecent; [| reflexivity].
      apply sliceLast_nil_iff in Hrecent; [discriminate | lia]. }
  split; [reflexivity |].
  split; [apply sliceLast_length |].
  split.
  { eexists. symmetry. apply sliceLast_suffix. }
  intros s' Hav Hrecent.
  unfold evalState. rewrite !Hrun. cbn [fst].
  unfold evalState. rewrite !buildContextString_run. cbn [fst].
  rewrite Hav, Hrecent. reflexivity.
Qed.

(** Two states with the same avatar whose logs differ only before the last
    three memories. *)
Lemma getSystemPrompt_assembly_witness :
  let m := fun n => MemoryItem.mk (String (ascii_of_nat (48 + n)) EmptyString)
                      "2025-01-01T00:00:00.000Z" note "likes tea" in
  let s := {| avatar := None; memories := [m 1; m 2; m 3; m 4] |} in
  let s' := {| avatar := None; memories := [m 0; m 9; m 2; m 3; m 4] |} in
  evalState (getSystemPrompt (fun iso => "1/1/2025") "Schedule.") s'
  = evalState (getSystemPrompt (fun iso => "1/1/2025") "Schedule.") s.
Proof.
  cbv zeta.
  match goal with
  | |- evalState _ ?s' = evalState _ ?s =>
      destruct (getSystemPrompt_assembly (fun iso => "1/1/2025") "Schedule." s)
        as (_ & _ & _ & _ & _ & _ & Hsame);
      exact (Hsame s' eq_refl eq_refl)
  end.
Defined.

(* ------------------------------------------------------------------ *)
(** ** Message sanitizer *)

Section StripTrailing.

Variable drop : HistoryRecord -> bool.

(** What is stripped is the end of the history, and every record of it
    was to be dropped. *)
Lemma stripTrailing_split (h : list HistoryRecord) :
  exists dropped,
    h = (stripTrailing drop h ++ dropped)%list
    /\ Forall (fun r => drop r = true) dropped.
Proof.
  induction h as [| r rest (dropped & Heq & Hall)].
  - exists []. split; [reflexivity | constructor].
  - cbn [stripTrailing].
    destruct (stripTrailing drop rest) as [| x kept] eqn:Hkept.
    + cbn [app] in Heq. subst rest. destruct (drop r) eqn:Hr.
      * exists (r :: dropped). split; [reflexivity |].
        constructor; [exact Hr | exact Hall].
      * exists dropped. split; [reflexivity | exact Hall].
    + exists dropped.
      split; [change (r :: rest = r :: ((x :: kept) ++ dropped))%list;
              f_equal; exact Heq | exact Hall].
Qed.

(** The stripped history does not end with a record to drop. *)
Lemma stripTrailing_last (h init : list HistoryRecord) (r : HistoryRecord) :
  stripTrailing drop h = (init ++ [r])%list -> drop r = false.
Proof.
  revert init. induction h as [| x rest IH]; intros init Heq.
  - destruct init; discriminate Heq.
  - cbn [stripTrailing] in Heq.
    destruct (stripTrailing drop rest) as [| y kept] eqn:Hkept.
    + destruct (drop x) eqn:Hx.
      * destruct init; discriminate Heq.
      * destruct init as [| i init]; [| destruct init; discriminate Heq].
        injection Heq as <-. exact Hx.
    + destruct init as [| i init]; [discriminate Heq |].
      injection Heq as _ Heq. apply (IH init). exact Heq.
Qed.

Lemma stripTrailing_fixed (h : list HistoryRecord) :
  stripTrailing drop (stripTrailing drop h) = stripTrailing drop h.
Proof.
  induction h as [| r rest IH]; [reflexivity |].
  cbn [stripTrailing].
  destruct (stripTrailing drop rest) as [| x kept] eqn:Hkept.
  - destruct (drop r) eqn:Hr; [reflexivity |].
    cbn [stripTrailing]. rewrite Hr. reflexivity.
  - change (stripTrailing drop (r :: x :: kept))
      with (match stripTrailing drop (x :: kept) with
            | [] => if drop r then [] else [r]
            | k => r :: k
            end).
    rewrite IH. reflexivity.
Qed.

(** The records that are to stay are all there, in their order. *)
Lemma stripTrailing_keeps (h : list HistoryRecord) :
  filter (fun r => negb (drop r)) (stripTrailing drop h)
  = filter (fun r => negb (drop r)) h.
Proof.
  destruct (stripTrailing_split h) as (dropped & Heq & Hall).
  rewrite Heq at 2. rewrite filter_app.
  assert (Hnone : filter (fun r => negb (drop r)) dropped = []).
  { clear Heq. induction Hall as [| r dropped Hr Hall IH]; [reflexivity |].
    cbn [filter]. rewrite Hr. exact IH. }
  rewrite Hnone, app_nil_r. reflexivity.
Qed.

End StripTrailing.

Lemma stripTrailing_ext (drop drop' : HistoryRecord -> bool)
  (h : list HistoryRecord) :
  (forall r, drop r = drop' r) ->
  stripTrailing drop h = stripTrailing drop' h.
Proof.
  intros Hext. induction h as [| r rest IH]; [reflexivity |].
  cbn [stripTrailing]. rewrite IH, Hext. reflexivity.
Qed.

(** Stripping removes no tool result, so the same invocations dangle before
    and after. *)
Lemma dangling_sanitize (h : list HistoryRecord) (r : HistoryRecord) :
  dangling (sanitize h) r = dangling h r.
Proof.
  destruct r as [role text | c name input | c out]; try reflexivity.
  cbn [dangling]. f_equal. unfold sanitize.
  destruct (stripTrailing_split (dangling h) h) as (dropped & Heq & Hall).
  rewrite Heq at 3. rewrite existsb_app.
  assert (Hnone : existsb (isResultOf c) dropped = false).
  { clear Heq. induction Hall as [| x dropped Hx Hall IH]; [reflexivity |].
    cbn [existsb]. rewrite IH.
    destruct x; cbn in Hx |- *; [discriminate Hx | reflexivity | discriminate Hx]. }
  rewrite Hnone, orb_false_r. reflexivity.
Qed.

(** C9.  Sanitizing twice is sanitizing once.  The records that are not
    dangling tool invocations are all kept, in their order: the sanitized
    history is the history without some dangling invocations at its end, and
    it does not end with a dangling invocation. *)
Theorem sanitize_idempotent (h : list HistoryRecord) :
  sanitize (sanitize h) = sanitize h
  /\ filter (fun r => negb (dangling h r)) (sanitize h)
     = filter (fun r => negb (dangling h r)) h
  /\ (exists dropped,
        h = (sanitize h ++ dropped)%list
        /\ Forall (fun r => dangling h r = true) dropped)
  /\ (forall init r, sanitize h = (init ++ [r])%list -> dangling h r = false).
Proof.
  split.
  { unfold sanitize at 1.
    rewrite (stripTrailing_ext _ (dangling h)) by apply dangling_sanitize.
    apply stripTrailing_fixed. }
  split; [apply stripTrailing_keeps |].
  split; [apply stripTrailing_split |].
  intros init r. apply stripTrailing_last.
Qed.

(** A history that ends with two invocations that got no result, after one
    that did. *)
Lemma sanitize_idempotent_witness :
  let h := [TextMessage "user" "remember that I like tea";
            ToolInvocation "c1" "saveMemory" "tea";
            ToolResult "c1" "stored";
            ToolInvocation "c2" "researchWeb" "tea";
            ToolInvocation "c3" "researchWeb" "memory"] in
  sanitize h = firstn 3 h
  /\ dangling h (ToolResult "c1" "stored") = false.
Proof.
  cbv zeta. split; [reflexivity |].
  match goal with
  | |- dangling ?h ?r = false =>
      destruct (sanitize_idempotent h) as (_ & _ & _ & Hlast);
      exact (Hlast (firstn 2 h) r eq_refl)
  end.
Defined.

(* ------------------------------------------------------------------ *)
(** ** Step orchestrator *)

Section StepCap.

Variable infer : list HistoryRecord -> ModelReply.
Variable runTool : HistoryRecord -> HistoryRecord.

Lemma startTurn_invariant (h : list HistoryRecord) :
  turnInvariant (startTurn h) /\ executionInvariant infer (startTurn h).
Proof.
  unfold turnInvariant, executionInvariant, startTurn, maxSteps. cbn.
  repeat split; lia.
Qed.

Lemma orchestratorStep_invariant (t : Turn) :
  turnInvariant t -> turnInvariant (orchestratorStep infer runTool t).
Proof.
  intros (Hcount & Hcap & Hopen). unfold orchestratorStep.
  destruct (phase t) as [| calls |] eqn:Hphase.
  - specialize (Hopen eq_refl).
    destruct (infer (history t)) as [text | partialText calls];
      unfold turnInvariant; cbn [phase invocations stepCounter List.length];
      repeat split; try lia; discriminate.
  - unfold turnInvariant. cbn [phase invocations stepCounter].
    repeat split; try assumption.
    destruct (Nat.leb_spec maxSteps (stepCounter t)); [discriminate | lia].
  - unfold turnInvariant. rewrite Hphase. repeat split; assumption.
Qed.

(** The executed calls are those of the replies, the calls of the reply
    that brought the counter to the cap among them. *)
Lemma orchestratorStep_execution (t : Turn) :
  executionInvariant infer t ->
  executionInvariant infer (orchestratorStep infer runTool t).
Proof.
  unfold executionInvariant, orchestratorStep.
  destruct (phase t) as [| calls |] eqn:Hphase; intros Hexec.
  - destruct (infer (history t)) as [text | partialText calls] eqn:Hreply;
      cbn [phase invocations executed history output].
    + unfold callsOfReplies. cbn [flat_map]. rewrite Hreply. exact Hexec.
    + exists (history t), (invocations t). repeat split; assumption.
  - destruct Hexec as (latest & earlier & Hinv & Hreply & _ & Hexec).
    assert (Hall : (rev calls ++ executed t)%list
                   = callsOfReplies infer (invocations t)).
    { rewrite Hinv, Hexec. unfold callsOfReplies. cbn [flat_map].
      rewrite Hreply. reflexivity. }
    destruct (maxSteps <=? stepCounter t)%nat;
      cbn [phase invocations executed]; exact Hall.
  - rewrite Hphase. exact Hexec.
Qed.

(** Every transition of a turn that is not over uses up one of the
    transitions that are left. *)
Lemma orchestratorStep_progress (t : Turn) :
  turnInvariant t -> phase t <> DONE ->
  transitionsLeft (orchestratorStep infer runTool t) < transitionsLeft t.
Proof.
  intros (Hcount & Hcap & Hopen) Hne.
  unfold orchestratorStep, transitionsLeft.
  destruct (phase t) as [| calls |]; [| | congruence].
  - specialize (Hopen eq_refl).
    destruct (infer (history t)) as [text | partialText calls];
      cbn [phase stepCounter]; lia.
  - destruct (maxSteps <=? stepCounter t)%nat; cbn [phase stepCounter]; lia.
Qed.

Lemma orchestrate_done (fuel : nat) :
  forall t : Turn,
    turnInvariant t -> executionInvariant infer t ->
    transitionsLeft t <= fuel ->
    phase (orchestrate infer runTool fuel t) = DONE
    /\ turnInvariant (orchestrate infer runTool fuel t)
    /\ executionInvariant infer (orchestrate infer runTool fuel t).
Proof.
  induction fuel as [| fuel IH]; intros t Hinv Hexec Hleft;
    cbn [orchestrate].
  - split; [| split; assumption].
    unfold transitionsLeft in Hleft.
    destruct Hinv as (_ & _ & Hopen).
    destruct (phase t) as [| calls |] eqn:Hphase; [| lia | reflexivity].
    specialize (Hopen eq_refl). lia.
  - destruct (phase t) as [| calls |] eqn:Hphase.
    + apply IH;
        [apply orchestratorStep_invariant, Hinv
        | apply orchestratorStep_execution, Hexec |].
      pose proof (orchestratorStep_progress t Hinv) as Hless.
      rewrite Hphase in Hless. specialize (Hless ltac:(discriminate)). lia.
    + apply IH;
        [apply orchestratorStep_invariant, Hinv
        | apply orchestratorStep_execution, Hexec |].
      pose proof (orchestratorStep_progress t Hinv) as Hless.
      rewrite Hphase in Hless. specialize (Hless ltac:(discriminate)). lia.
    + assert (Hsame : orchestratorStep infer runTool t = t).
      { unfold orchestratorStep. rewrite Hphase. reflexivity. }
      rewrite Hsame. apply IH; [exact Hinv | exact Hexec |].
      unfold transitionsLeft. rewrite Hphase. lia.
Qed.

Hypothesis always_calls :
  forall h, exists partialText calls, infer h = ToolCalls partialText calls.

Lemma orchestratorStep_capped (t : Turn) :
  turnInvariant t -> executionInvariant infer t ->
  cappedTurn infer runTool t ->
  cappedTurn infer runTool (orchestratorStep infer runTool t).
Proof.
  intros (Hcount & Hcap & Hopen) Hexec Hcapped.
  unfold executionInvariant in Hexec. unfold orchestratorStep.
  destruct (phase t) as [| calls |] eqn:Hphase.
  - destruct (always_calls (history t)) as (partialText & calls & Hreply).
    rewrite Hreply. unfold cappedTurn. cbn [phase]. discriminate.
  - destruct Hexec as (latest & earlier & Hinv & Hreply & Hhistory & _).
    unfold cappedTurn.
    cbn [phase invocations stepCounter history output].
    destruct (Nat.leb_spec maxSteps (stepCounter t)); [| discriminate].
    intros _. split; [lia |].
    exists latest, calls. rewrite Hinv, Hhistory.
    repeat split; [exact Hreply].
  - unfold cappedTurn in *. rewrite Hphase in *. exact Hcapped.
Qed.

Lemma orchestrate_capped (fuel : nat) :
  forall t : Turn,
    turnInvariant t -> executionInvariant infer t ->
    cappedTurn infer runTool t ->
    cappedTurn infer runTool (orchestrate infer runTool fuel t).
Proof.
  induction fuel as [| fuel IH]; intros t Hinv Hexec Hcapped;
    cbn [orchestrate].
  - exact Hcapped.
  - apply IH.
    + apply orchestratorStep_invariant, Hinv.
    + apply orchestratorStep_execution, Hexec.
    + apply orchestratorStep_capped; assumption.
Qed.

End StepCap.

(** What the invariants say of a turn that is over. *)
Lemma finished_turn (infer : list HistoryRecord -> ModelReply)
  (runTool : HistoryRecord -> HistoryRecord) (t : Turn) :
  phase t = DONE ->
  turnInvariant t ->
  executionInvariant infer t ->
  ((forall h', exists partialText calls,
       infer h' = ToolCalls partialText calls) ->
   cappedTurn infer runTool t) ->
  phase t = DONE
  /\ List.length (invocations t) <= 10
  /\ stepCounter t = List.length (invocations t)
  /\ executed t = callsOfReplies infer (invocations t)
  /\ ((forall h', exists partialText calls,
          infer h' = ToolCalls partialText calls) ->
      List.length (invocations t) = 10
      /\ exists latest calls,
           hd_error (invocations t) = Some latest
           /\ infer latest = ToolCalls (output t) calls
           /\ history t = (latest ++ calls ++ map runTool calls)%list).
Proof.
  intros Hdone (Hcount & Hcap & _) Hexec Hcapped.
  split; [exact Hdone |].
  split; [rewrite Hcount; exact Hcap |].
  split; [symmetry; exact Hcount |].
  split.
  { unfold executionInvariant in Hexec. rewrite Hdone in Hexec. exact Hexec. }
  intros Hcalls.
  destruct (Hcapped Hcalls Hdone) as (Hsteps & Hlast).
  split; [rewrite Hcount; exact Hsteps | exact Hlast].
Qed.




(* ================================================================== *)
(** * Further properties of the state store *)

(** X1.  While the log holds fewer than 50 items a save evicts nothing: the
    log is the old one with the new item at its end. *)
Theorem saveMemory_below_cap (c : SaveCall) (s : AgentState) :
  List.length (memories s) < 50 ->
  memories (execState (saveCall c) s) = (memories s ++ [itemOf c])%list
  /\ List.length (memories (execState (saveCall c) s))
     = S (List.length (memories s)).
Proof.
  intros Hlt. unfold execState. rewrite saveCall_run. cbn [snd memories].
  rewrite sliceLast_short by (rewrite length_app; cbn; lia).
  split; [reflexivity |]. rewrite length_app. cbn. lia.
Qed.

Lemma saveMemory_below_cap_witness :
  memories (execState (saveCall (mkSaveCall note "likes tea" "m1" "t1"))
              initialState)
  = [itemOf (mkSaveCall note "likes tea" "m1" "t1")].
Proof.
  destruct (saveMemory_below_cap (mkSaveCall note "likes tea" "m1" "t1")
              initialState) as (Hmem & _).
  - cbn. lia.
  - exact Hmem.
Defined.

(** X2.  Once the log holds 50 items or more a save leaves exactly 50: the
    last 49 of the old log and the new item.  With exactly 50 items that is
    the old log without its first item. *)
Theorem saveMemory_at_cap (c : SaveCall) (s : AgentState) :
  50 <= List.length (memories s) ->
  memories (execState (saveCall c) s)
  = (sliceLast 49 (memories s) ++ [itemOf c])%list
  /\ List.length (memories (execState (saveCall c) s)) = 50
  /\ (List.length (memories s) = 50 ->
      memories (execState (saveCall c) s)
      = (tl (memories s) ++ [itemOf c])%list).
Proof.
  intros Hge. unfold execState. rewrite saveCall_run. cbn [snd memories].
  assert (Hkept : sliceLast 50 (memories s ++ [itemOf c])
                  = (sliceLast 49 (memories s) ++ [itemOf c])%list).
  { unfold sliceLast. rewrite skipn_app, length_app. cbn [List.length].
    replace (List.length (memories s) + 1 - 50)
      with (List.length (memories s) - 49) by lia.
    replace (List.length (memories s) - 49 - List.length (memories s))
      with 0 by lia.
    reflexivity. }
  rewrite Hkept. split; [reflexivity |].
  split.
  - rewrite length_app, sliceLast_length. cbn [List.length]. lia.
  - intros Hfull. unfold sliceLast. rewrite Hfull. cbn [Nat.sub].
    destruct (memories s); reflexivity.
Qed.

Lemma saveMemory_at_cap_witness :
  let full := map (fun n => MemoryItem.mk (String (ascii_of_nat n) EmptyString)
                              "t" note "old") (seq 0 50) in
  let s := {| avatar := None; memories := full |} in
  let c := mkSaveCall task "new" "id" "now" in
  memories (execState (saveCall c) s) = (tl full ++ [itemOf c])%list.
Proof.
  cbv zeta.
  match goal with
  | |- memories (execState (saveCall ?c) ?s) = _ =>
      destruct (saveMemory_at_cap c s) as (_ & _ & Hfull);
      [vm_compute; lia | exact (Hfull eq_refl)]
  end.
Defined.

(** X3.  What a save returns is never empty: it has between 1 and 5 items,
    the new item is its last, and it is the list of memories that
    [getAvatarState] reports right after the save. *)
Theorem saveMemory_returns_view (c : SaveCall) (s : AgentState) :
  let returned := evalState (saveCall c) s in
  let after := execState (saveCall c) s in
  List.length returned = Nat.min 5 (S (List.length (memories s)))
  /\ (exists older, returned = older ++ [itemOf c])%list
  /\ memories (evalState getAvatarState after) = returned
  /\ avatar (evalState getAvatarState after) = avatar s.
Proof.
  cbv zeta. unfold evalState, execState. rewrite saveCall_run.
  cbn [fst snd]. unfold getAvatarState. run_agent. cbn [memories avatar].
  rewrite sliceLast_nested by lia.
  split.
  { rewrite sliceLast_length, length_app. cbn [List.length]. lia. }
  split; [| split; reflexivity].
  unfold sliceLast. rewrite skipn_app, length_app. cbn [List.length].
  replace (List.length (memories s) + 1 - 5 - List.length (memories s))
    with 0 by lia.
  cbn [skipn]. eauto.
Qed.

(** X4.  After 50 saves or more nothing of the first log is left: the log
    is made of the items of the last 50 calls, in the order of the calls. *)
Theorem saveMemory_log_turnover (calls : list SaveCall) (s : AgentState) :
  50 <= List.length calls ->
  memories (execState (saveCalls calls) s)
  = map itemOf (sliceLast 50 calls).
Proof.
  intros Hge. destruct calls as [| c calls]; [cbn in Hge; lia |].
  rewrite saveCalls_run. cbn [memories].
  unfold sliceLast. rewrite skipn_app, length_app, length_map.
  replace (skipn (List.length (memories s) + List.length (c :: calls) - 50)
             (memories s)) with (@nil MemoryItem.t)
    by (symmetry; apply skipn_all2; lia).
  cbn [app]. rewrite skipn_map. f_equal. f_equal. lia.
Qed.

Lemma saveMemory_log_turnover_witness :
  let calls := map (fun n => mkSaveCall note "fact"
                               (String (ascii_of_nat n) EmptyString) "t")
                   (seq 0 60) in
  let s := {| avatar := None;
              memories := [MemoryItem.mk "old" "t0" task "first"] |} in
  memories (execState (saveCalls calls) s) = map itemOf (skipn 10 calls).
Proof.
  cbv zeta.
  match goal with
  | |- memories (execState (saveCalls ?calls) ?s) = _ =>
      rewrite (saveMemory_log_turnover calls s);
      [reflexivity | vm_compute; lia]
  end.
Defined.

(** X5.  Saving a memory and saving the profile do not interfere: in either
    order they leave the same state and return the same values. *)
Theorem saveMemory_saveAvatarProfile_commute (c : SaveCall)
  (p : PartialAvatar.t) (freshId : string) (s : AgentState) :
  runState (items <- saveCall c ;;
            updated <- saveAvatarProfile p freshId ;;
            ret (items, updated)) s
  = runState (updated <- saveAvatarProfile p freshId ;;
              items <- saveCall c ;;
              ret (items, updated)) s.
Proof.
  rewrite !run_bind, saveCall_run, saveAvatarProfile_run.
  rewrite !run_bind, saveCall_run, saveAvatarProfile_run.
  rewrite !run_ret. reflexivity.
Qed.

(** X6.  A saved avatar always has a display name that is not empty, and
    its id is not empty as soon as the stored id or the fresh one is not. *)
Theorem saveAvatarProfile_name_not_empty (p : PartialAvatar.t)
  (freshId : string) (s : AgentState) :
  let updated := evalState (saveAvatarProfile p freshId) s in
  truthy (AvatarProfile.displayName updated) = true
  /\ (truthy freshId = true -> truthy (AvatarProfile.id updated) = true)
  /\ (forall a, avatar s = Some a -> truthy (AvatarProfile.id a) = true ->
      truthy (AvatarProfile.id updated) = true).
Proof.
  cbv zeta. unfold evalState, saveAvatarProfile. run_agent.
  cbn [AvatarProfile.displayName AvatarProfile.id].
  split; [apply orStr_truthy, orStr_truthy; reflexivity |].
  split; [apply orStr_truthy |].
  intros a -> Hid. cbn [option_map]. rewrite orStr_keeps; assumption.
Qed.

Lemma saveAvatarProfile_name_not_empty_witness :
  truthy (AvatarProfile.id
            (evalState (saveAvatarProfile PartialAvatar.empty "f1")
               initialState)) = true.
Proof.
  destruct (saveAvatarProfile_name_not_empty PartialAvatar.empty "f1"
              initialState) as (_ & Hid & _).
  exact (Hid eq_refl).
Defined.

(** X7.  The merge does not look at an id in the update, and a display name
    or bio that is supplied empty counts as left out: the update without
    these fields has the same effect and the same result. *)
Theorem saveAvatarProfile_ignored_fields (p : PartialAvatar.t)
  (freshId : string) (s : AgentState) :
  runState (saveAvatarProfile p freshId) s
  = runState (saveAvatarProfile (effectiveInput p) freshId) s.
Proof.
  destruct p as [pid pname pbio ptone ptags].
  unfold saveAvatarProfile, effectiveInput. run_agent.
  cbn [PartialAvatar.displayName PartialAvatar.bio PartialAvatar.tone
       PartialAvatar.expertiseTags].
  destruct pname as [[| ch name] |], pbio as [[| ch' text] |]; reflexivity.
Qed.

(** X8.  Repeating an update changes nothing: when the first save got an
    id that is not empty, the same update once more returns the same avatar
    and leaves the state as the first save left it. *)
Theorem saveAvatarProfile_repeat (p : PartialAvatar.t)
  (freshId freshId' : string) (s : AgentState) :
  truthy freshId = true ->
  runState (saveAvatarProfile p freshId')
    (execState (saveAvatarProfile p freshId) s)
  = (evalState (saveAvatarProfile p freshId) s,
     execState (saveAvatarProfile p freshId) s).
Proof.
  intros Hfresh.
  destruct p as [pid pname pbio ptone ptags], s as [cur mems].
  unfold execState, evalState, saveAvatarProfile. run_agent.
  cbn [avatar memories option_map PartialAvatar.displayName
       PartialAvatar.bio PartialAvatar.tone PartialAvatar.expertiseTags
       AvatarProfile.id AvatarProfile.displayName AvatarProfile.bio
       AvatarProfile.tone AvatarProfile.expertiseTags].
  assert (Hid : forall stored,
             orStr (Some (orStr stored freshId)) freshId'
             = orStr stored freshId).
  { intros stored. apply orStr_keeps, orStr_truthy, Hfresh. }
  assert (Hname : forall stored,
             orStr pname (orStr (Some (orStr pname (orStr stored
                                                      "Unnamed Avatar")))
                            "Unnamed Avatar")
             = orStr pname (orStr stored "Unnamed Avatar")).
  { intros stored. destruct pname as [[| ch name] |]; cbn [orStr truthy];
      try reflexivity;
      apply orStr_keeps, orStr_truthy; reflexivity. }
  assert (Hbio : forall stored,
             orStr pbio (orStr (Some (orStr pbio (orStr stored EmptyString)))
                           EmptyString)
             = orStr pbio (orStr stored EmptyString)).
  { intros stored. destruct pbio as [[| ch text] |]; cbn [orStr truthy];
      try reflexivity;
      destruct stored as [[| ch' text'] |]; reflexivity. }
  rewrite Hid, Hname, Hbio.
  destruct ptone, ptags; reflexivity.
Qed.

Lemma saveAvatarProfile_repeat_witness :
  let p := PartialAvatar.mk None (Some "Ann") None (Some technical) None in
  runState (saveAvatarProfile p "f2")
    (execState (saveAvatarProfile p "f1") initialState)
  = (AvatarProfile.mk "f1" "Ann" EmptyString technical [],
     {| avatar := Some (AvatarProfile.mk "f1" "Ann" EmptyString technical []);
        memories := [] |}).
Proof.
  cbv zeta.
  rewrite (saveAvatarProfile_repeat
             (PartialAvatar.mk None (Some "Ann") None (Some technical) None)
             "f1" "f2" initialState eq_refl).
  reflexivity.
Defined.

(* ------------------------------------------------------------------ *)
(** ** Sequences of calls *)

Lemma perform_run (call : AgentCall) (s : AgentState) :
  execState (perform call) s
  = match call with
    | CallSaveMemory c => execState (saveCall c) s
    | CallSaveAvatarProfile p freshId =>
        execState (saveAvatarProfile p freshId) s
    | CallResearchWeb _ | CallGetAvatarState => s
    end.
Proof.
  destruct call; reflexivity.
Qed.

Lemma perform_keeps (call : AgentCall) (s : AgentState) :
  keptState s ->
  match call with
  | CallSaveAvatarProfile _ freshId => truthy freshId = true
  | _ => True
  end ->
  keptState (execState (perform call) s)
  /\ (forall a, avatar s = Some a ->
      exists a', avatar (execState (perform call) s) = Some a'
                 /\ AvatarProfile.id a' = AvatarProfile.id a).
Proof.
  intros (Hcap & Havatar) Hfresh. rewrite perform_run.
  destruct call as [c | p freshId | query |].
  - unfold execState. rewrite saveCall_run. unfold keptState.
    cbn [snd avatar memories].
    split; [split; [rewrite sliceLast_length; lia | exact Havatar] |].
    intros a Ha. exists a. split; [exact Ha | reflexivity].
  - unfold execState. rewrite saveAvatarProfile_run. unfold keptState.
    cbn [snd avatar memories].
    split.
    + split; [exact Hcap |].
      unfold evalState, saveAvatarProfile. run_agent.
      cbn [AvatarProfile.id AvatarProfile.displayName].
      split; [apply orStr_truthy, Hfresh |].
      apply orStr_truthy, orStr_truthy. reflexivity.
    + intros a Ha. eexists. split; [reflexivity |].
      unfold evalState, saveAvatarProfile. run_agent.
      cbn [AvatarProfile.id]. rewrite Ha in *. cbn [option_map].
      apply orStr_keeps. apply Havatar.
  - split; [split; assumption |]. intros a Ha. exists a. split; auto.
  - split; [split; assumption |]. intros a Ha. exists a. split; auto.
Qed.

Lemma saveAvatarProfile_empty_kept (s : AgentState) (a : AvatarProfile.t)
  (freshId : string) :
  keptState s -> avatar s = Some a ->
  runState (saveAvatarProfile PartialAvatar.empty freshId) s = (a, s).
Proof.
  intros (_ & Havatar) Ha. rewrite Ha in Havatar.
  destruct Havatar as (Hid & Hname).
  destruct s as [cur mems], a as [aid aname abio atone atags].
  cbn [avatar] in Ha. subst cur.
  cbn [AvatarProfile.id AvatarProfile.displayName] in Hid, Hname.
  unfold saveAvatarProfile. run_agent.
  cbn [avatar memories option_map PartialAvatar.displayName
       PartialAvatar.bio PartialAvatar.tone PartialAvatar.expertiseTags
       PartialAvatar.empty AvatarProfile.id AvatarProfile.displayName
       AvatarProfile.bio AvatarProfile.tone AvatarProfile.expertiseTags
       orElse orStr].
  rewrite Hid, Hname. destruct abio; reflexivity.
Qed.

(** X9.  Whatever methods are called in whatever order, from a state with
    a log within the cap and no avatar or one with an id and a name that are
    not empty, and as long as the generated ids are not empty: the log stays
    within the cap, a stored avatar keeps its id for good and has a name
    that is not empty, and in the state reached [saveAvatarProfile({})]
    returns the stored avatar and changes nothing.  The initial state is
    such a state. *)
Theorem performAll_keeps (calls : list AgentCall) :
  forall s : AgentState,
    keptState s -> idsNotEmpty calls ->
    let s' := execState (performAll calls) s in
    keptState s'
    /\ (forall a, avatar s = Some a ->
        exists a', avatar s' = Some a'
                   /\ AvatarProfile.id a' = AvatarProfile.id a)
    /\ (forall a freshId, avatar s' = Some a ->
        runState (saveAvatarProfile PartialAvatar.empty freshId) s'
        = (a, s')).
Proof.
  induction calls as [| call calls IH]; intros s Hkept Hids; cbv zeta.
  - change (execState (performAll []) s) with s.
    split; [exact Hkept |].
    split.
    + intros a Ha. exists a. split; [exact Ha | reflexivity].
    + intros a freshId Ha. apply saveAvatarProfile_empty_kept; assumption.
  - inversion Hids as [| ? ? Hfresh Hrest]; subst.
    destruct (perform_keeps call s Hkept Hfresh) as (Hkept1 & Hid1).
    assert (Hstep : execState (performAll (call :: calls)) s
                    = execState (performAll calls)
                        (execState (perform call) s)).
    { unfold execState. cbn [performAll]. rewrite run_bind.
      destruct (runState (perform call) s). reflexivity. }
    rewrite Hstep.
    destruct (IH _ Hkept1 Hrest) as (Hkept' & Hid' & Hempty).
    split; [exact Hkept' |].
    split; [| exact Hempty].
    intros a Ha. destruct (Hid1 a Ha) as (a1 & Ha1 & Heq1).
    destruct (Hid' a1 Ha1) as (a' & Ha' & Heq').
    exists a'. split; [exact Ha' | congruence].
Qed.

Lemma performAll_keeps_witness :
  let calls := [CallSaveAvatarProfile
                  (PartialAvatar.mk None (Some "Ann") None None None) "f1";
                CallSaveMemory (mkSaveCall note "likes tea" "m1" "t1");
                CallResearchWeb "tone";
                CallSaveAvatarProfile
                  (PartialAvatar.mk (Some "other") None (Some "Proofs")
                     (Some technical) None) "f2";
                CallGetAvatarState] in
  keptState (execState (performAll calls) initialState)
  /\ option_map AvatarProfile.id
       (avatar (execState (performAll calls) initialState)) = Some "f1".
Proof.
  cbv zeta. split; [| reflexivity].
  match goal with
  | |- keptState (execState (performAll ?calls) _) =>
      destruct (performAll_keeps calls initialState) as (Hkept & _)
  end.
  - split; [cbn; lia | exact I].
  - repeat constructor.
  - exact Hkept.
Defined.

(* ------------------------------------------------------------------ *)
(** ** Start-up check, again *)

(** X10.  Running the start-up check a second time changes nothing. *)
Theorem onStart_idempotent (v : Slot) :
  execState onStart (execState onStart v) = execState onStart v.
Proof.
  destruct v as [| | [n | str | b] | av [items | | prim]];
    unfold execState, onStart; run_agent;
    cbn [slotFalsy typeofObject memoriesIsArray withEmptyMemories negb orb];
    rewrite ?orb_true_r;
    cbn [slotFalsy typeofObject memoriesIsArray withEmptyMemories negb orb];
    reflexivity.
Qed.

(* ================================================================== *)
(** * Further properties of the document matcher *)

Lemma lowerChar_fixed (c : ascii) : lowerChar (lowerChar c) = lowerChar c.
Proof.
  destruct c as [[] [] [] [] [] [] [] []]; reflexivity.
Qed.

Lemma toLowerCase_fixed (s : string) :
  toLowerCase (toLowerCase s) = toLowerCase s.
Proof.
  induction s as [| c s IH]; cbn [toLowerCase]; [reflexivity |].
  rewrite lowerChar_fixed, IH. reflexivity.
Qed.

Lemma sumZ_token_bounds (key contentLower : string) (tokens : list string) :
  (0 <= sumZ (map (specTokenScore key contentLower) tokens)
   <= 3 * Z.of_nat (List.length tokens))%Z.
Proof.
  induction tokens as [| t tokens IH]; [cbn; lia |].
  cbn [map List.length]. unfold sumZ in *. cbn [fold_right].
  unfold specTokenScore at 1 3.
  destruct (includes key t), (includes contentLower t); lia.
Qed.

(** The result when there is a first entry of maximum score and that score
    is 2 or more. *)
Lemma researchDocs_first_maximum (docs : list (string * Doc))
  (query : string) (before : list (string * Doc)) (entry : string * Doc)
  (after : list (string * Doc)) :
  firstMaximum (toLowerCase query) docs before entry after ->
  (2 <= entryScore (toLowerCase query) entry)%Z ->
  researchDocs docs query = Some (renderResult query (snd entry)).
Proof.
  intros (Hdocs & Hbefore & Hafter) Hgood.
  rewrite researchDocs_unfold. cbv zeta. rewrite Hdocs.
  rewrite (scan_first_maximum _ _ _ _ Hbefore Hafter) by lia.
  cbn [fst snd isNull orb].
  destruct (Z.ltb_spec (entryScore (toLowerCase query) entry) 2); [lia |].
  reflexivity.
Qed.

(** An entry whose key occurs in the lower-cased query scores 10 or
    more. *)
Lemma scoreDoc_key_floor (queryLower key : string) (doc : Doc) :
  includes queryLower key = true ->
  (10 <= scoreDoc queryLower key doc)%Z.
Proof.
  intros Hkey. rewrite scoreDoc_spec. unfold specScore. rewrite Hkey.
  pose proof (sumZ_token_bounds key (toLowerCase (content doc))
                (filter (fun token => (2 <? String.length token)%nat)
                   (splitWhitespace queryLower))) as Hsum.
  destruct (includes (toLowerCase (title doc)) queryLower),
    (includes (toLowerCase (content doc)) queryLower); lia.
Qed.

(** X11.  A score is never negative and is at most 18 plus 3 for every
    token of the query that is longer than 2 characters.  An entry whose key
    occurs in the lower-cased query scores 10 or more; any other entry scores
    at most 8 plus 3 for every such token. *)
Theorem scoreDoc_bounds (queryLower key : string) (doc : Doc) :
  let tokens := filter (fun token => (2 <? String.length token)%nat)
                  (splitWhitespace queryLower) in
  (0 <= scoreDoc queryLower key doc
   <= 18 + 3 * Z.of_nat (List.length tokens))%Z
  /\ (includes queryLower key = true ->
      (10 <= scoreDoc queryLower key doc)%Z)
  /\ (includes queryLower key = false ->
      (scoreDoc queryLower key doc
       <= 8 + 3 * Z.of_nat (List.length tokens))%Z).
Proof.
  cbv zeta. rewrite scoreDoc_spec. unfold specScore.
  pose proof (sumZ_token_bounds key (toLowerCase (content doc))
                (filter (fun token => (2 <? String.length token)%nat)
                   (splitWhitespace queryLower))) as Hsum.
  destruct (includes queryLower key),
    (includes (toLowerCase (title doc)) queryLower),
    (includes (toLowerCase (content doc)) queryLower);
    repeat split; intros; try discriminate; lia.
Qed.

Lemma scoreDoc_bounds_witness :
  (10 <= scoreDoc "set my tone" "tone" doc_tone)%Z
  /\ (scoreDoc "set my tone" "memory" doc_memory <= 8 + 3 * 2)%Z.
Proof.
  split.
  - destruct (scoreDoc_bounds "set my tone" "tone" doc_tone)
      as (_ & Hhit & _).
    exact (Hhit eq_refl).
  - destruct (scoreDoc_bounds "set my tone" "memory" doc_memory)
      as (_ & _ & Hmiss).
    exact (Hmiss eq_refl).
Defined.

(** X12.  When the lower-cased query contains the key of an entry of the
    catalog, the search does not fall back: its result is the first entry of
    maximum score, and that score is 10 or more. *)
Theorem researchDocs_key_hit (docs : list (string * Doc)) (query : string)
  (key : string) (doc : Doc) :
  In (key, doc) docs ->
  includes (toLowerCase query) key = true ->
  exists before entry after,
    firstMaximum (toLowerCase query) docs before entry after
    /\ (10 <= entryScore (toLowerCase query) entry)%Z
    /\ researchDocs docs query = Some (renderResult query (snd entry)).
Proof.
  intros Hin Hkey.
  destruct (firstMaximum_exists (toLowerCase query) docs)
    as (before & entry & after & Hmax).
  { intros ->. exact Hin. }
  assert (Hscore : (10 <= entryScore (toLowerCase query) entry)%Z).
  { pose proof (scoreDoc_key_floor (toLowerCase query) key doc Hkey) as Hhit.
    destruct Hmax as (Hdocs & Hbefore & Hafter).
    rewrite Hdocs in Hin. apply in_app_or in Hin.
    rewrite Forall_forall in Hbefore, Hafter.
    destruct Hin as [Hin | [Heq | Hin]].
    - specialize (Hbefore _ Hin). unfold entryScore in *.
      cbn [fst snd] in Hbefore. lia.
    - rewrite Heq. exact Hhit.
    - specialize (Hafter _ Hin). unfold entryScore in *.
      cbn [fst snd] in Hafter. lia. }
  exists before, entry, after.
  split; [exact Hmax |]. split; [exact Hscore |].
  apply (researchDocs_first_maximum docs query before entry after Hmax).
  lia.
Qed.

Lemma researchDocs_key_hit_witness :
  exists entry,
    In entry percifyDocs
    /\ researchDocs percifyDocs "Change my TONE please"
       = Some (renderResult "Change my TONE please" (snd entry)).
Proof.
  destruct (researchDocs_key_hit percifyDocs "Change my TONE please"
              "tone" doc_tone)
    as (before & entry & after & (Hdocs & _) & _ & Hres).
  - right. right. left. reflexivity.
  - reflexivity.
  - exists entry. split; [| exact Hres].
    rewrite Hdocs. apply in_or_app. right. left. reflexivity.
Defined.

(** X13.  The search fails only for want of a [getting_started] entry: with
    one in the catalog every query has a result; without one, a query for
    which no entry scores 2 or more has none, and so has every query on the
    empty catalog. *)
Theorem researchDocs_needs_fallback_entry (docs : list (string * Doc))
  (query : string) :
  (forall d, lookupDoc "getting_started" docs = Some d ->
     exists r, researchDocs docs query = Some r)
  /\ (lookupDoc "getting_started" docs = None ->
      Forall (fun e => entryScore (toLowerCase query) e < 2)%Z docs ->
      researchDocs docs query = None)
  /\ researchDocs [] query = None.
Proof.
  split.
  { intros d Hd. rewrite researchDocs_unfold. cbv zeta.
    destruct (scan_score_origin (toLowerCase query) docs None 0%Z)
      as [Heq | (e & Hin & Heq)]; cbv zeta in Heq; rewrite Heq; cbn [fst snd].
    - cbn [isNull orb]. rewrite Hd. eexists. reflexivity.
    - cbn [isNull orb].
      destruct (entryScore (toLowerCase query) e <? 2)%Z;
        [rewrite Hd |]; eexists; reflexivity. }
  split; [| reflexivity].
  intros Hnone Hlow. rewrite researchDocs_unfold. cbv zeta.
  destruct (scan_score_origin (toLowerCase query) docs None 0%Z)
    as [Heq | (e & Hin & Heq)]; cbv zeta in Heq; rewrite Heq; cbn [fst snd].
  - cbn [isNull orb]. rewrite Hnone. reflexivity.
  - cbn [isNull orb]. rewrite Forall_forall in Hlow. specialize (Hlow e Hin).
    destruct (Z.ltb_spec (entryScore (toLowerCase query) e) 2); [| lia].
    rewrite Hnone. reflexivity.
Qed.

Lemma researchDocs_needs_fallback_entry_witness :
  researchDocs [("tone", doc_tone); ("api", doc_api)] "zz" = None
  /\ exists r, researchDocs percifyDocs "zz" = Some r.
Proof.
  split.
  - destruct (researchDocs_needs_fallback_entry
                [("tone", doc_tone); ("api", doc_api)] "zz")
      as (_ & Hnone & _).
    apply Hnone; [reflexivity |].
    repeat constructor; vm_compute; reflexivity.
  - destruct (researchDocs_needs_fallback_entry percifyDocs "zz")
      as (Hsome & _).
    exact (Hsome doc_getting_started eq_refl).
Defined.

(** X14.  The search does not see the case of the query: two queries with
    the same lower-case form get the same snippet and the same source, and a
    query gets the ones of its lower-case form.  Only the [query] field of
    the result carries the query as it was typed. *)
Theorem researchDocs_case_insensitive (docs : list (string * Doc))
  (q q' : string) :
  (toLowerCase q' = toLowerCase q ->
   option_map snippet (researchDocs docs q')
   = option_map snippet (researchDocs docs q)
   /\ option_map sourceUrl (researchDocs docs q')
      = option_map sourceUrl (researchDocs docs q))
  /\ option_map snippet (researchDocs docs (toLowerCase q))
     = option_map snippet (researchDocs docs q)
  /\ option_map sourceUrl (researchDocs docs (toLowerCase q))
     = option_map sourceUrl (researchDocs docs q)
  /\ option_map query (researchDocs docs q)
     = option_map (fun _ => q) (researchDocs docs q).
Proof.
  assert (Hsame : forall q0 q1, toLowerCase q1 = toLowerCase q0 ->
            option_map snippet (researchDocs docs q1)
            = option_map snippet (researchDocs docs q0)
            /\ option_map sourceUrl (researchDocs docs q1)
               = option_map sourceUrl (researchDocs docs q0)).
  { intros q0 q1 Hlow. rewrite !researchDocs_unfold. cbv zeta. rewrite Hlow.
    destruct (if isNull _ || _ then _ else _); split; reflexivity. }
  split; [apply Hsame |].
  destruct (Hsame q (toLowerCase q) (toLowerCase_fixed q))
    as (Hsnippet & Hsource).
  split; [exact Hsnippet |]. split; [exact Hsource |].
  rewrite researchDocs_unfold. cbv zeta.
  destruct (if isNull _ || _ then _ else _); reflexivity.
Qed.

Lemma researchDocs_case_insensitive_witness :
  option_map sourceUrl (researchDocs percifyDocs "MEMORY system")
  = option_map sourceUrl (researchDocs percifyDocs "memory SYSTEM").
Proof.
  destruct (researchDocs_case_insensitive percifyDocs "memory SYSTEM"
              "MEMORY system") as (Hsame & _).
  destruct (Hsame eq_refl) as (_ & Hsource). exact Hsource.
Defined.

(* ================================================================== *)
(** * Further properties of the context builder *)

Lemma getSystemPrompt_run (toLocaleDateString : string -> string)
  (schedulePrompt : string) (s : AgentState) :
  runState (getSystemPrompt toLocaleDateString schedulePrompt) s
  = (promptHead ++ toneName (currentTone s) ++ "): "
     ++ toneInstructions (currentTone s)
     ++ promptMiddle ++ schedulePrompt ++ nl ++ nl
     ++ evalState (buildContextString toLocaleDateString) s, s).
Proof.
  unfold getSystemPrompt, evalState.
  rewrite run_bind. cbn [get MonadState_state runState].
  rewrite run_bind, buildContextString_run, run_ret. reflexivity.
Qed.

Lemma append_cancel (a b c : string) : a ++ b = a ++ c -> b = c.
Proof.
  induction a as [| ch a IH]; cbn; [auto |].
  intros [= H]. apply IH, H.
Qed.

Lemma join_empty_app (l : list string) (x : string) :
  join EmptyString (l ++ [x]) = join EmptyString l ++ x.
Proof.
  induction l as [| y l IH].
  - reflexivity.
  - change ((y :: l) ++ [x])%list with (y :: (l ++ [x]))%list.
    rewrite !join_empty_cons, IH, append_assoc. reflexivity.
Qed.

(** X15.  The prompt follows the profile: right after a save that sets the
    tone, the prompt carries the name and the directive of that tone. *)
Theorem getSystemPrompt_after_tone (toLocaleDateString : string -> string)
  (schedulePrompt : string) (p : PartialAvatar.t) (freshId : string)
  (s : AgentState) (t : Tone) :
  PartialAvatar.tone p = Some t ->
  exists rest,
    evalState (_ <- saveAvatarProfile p freshId ;;
               getSystemPrompt toLocaleDateString schedulePrompt) s
    = promptHead ++ toneName t ++ "): " ++ toneInstructions t
      ++ promptMiddle ++ schedulePrompt ++ rest.
Proof.
  intros Htone. unfold evalState.
  rewrite run_bind, saveAvatarProfile_run, getSystemPrompt_run. cbn [fst].
  match goal with
  | |- context [currentTone ?st] => assert (Hcurrent : currentTone st = t)
  end.
  { unfold currentTone. cbn [avatar option_map orElse].
    unfold evalState, saveAvatarProfile. run_agent.
    cbn [AvatarProfile.tone]. rewrite Htone. reflexivity. }
  rewrite Hcurrent. eexists. reflexivity.
Qed.

Lemma getSystemPrompt_after_tone_witness :
  exists rest,
    evalState (_ <- saveAvatarProfile
                      (PartialAvatar.mk None None None (Some technical) None)
                      "f1" ;;
               getSystemPrompt (fun iso => iso) "Schedule.") initialState
    = promptHead ++ "technical): "
      ++ "Be detailed, accurate, and use technical terminology. Focus on precision."
      ++ promptMiddle ++ "Schedule." ++ rest.
Proof.
  exact (getSystemPrompt_after_tone (fun iso => iso) "Schedule."
           (PartialAvatar.mk None None None (Some technical) None)
           "f1" initialState technical eq_refl).
Defined.

(** X16.  The prompt follows the log: right after a save of a memory, the
    prompt ends with the line of that memory. *)
Theorem getSystemPrompt_after_memory (toLocaleDateString : string -> string)
  (schedulePrompt : string) (c : SaveCall) (s : AgentState) :
  exists before,
    evalState (_ <- saveCall c ;;
               getSystemPrompt toLocaleDateString schedulePrompt) s
    = before ++ memoryLine toLocaleDateString (itemOf c).
Proof.
  unfold evalState.
  rewrite run_bind, saveCall_run. cbv zeta.
  rewrite getSystemPrompt_run. cbn [fst].
  unfold evalState. rewrite buildContextString_run. cbn [fst memories].
  rewrite sliceLast_nested by lia.
  assert (Hrecent : exists older,
             sliceLast 3 (memories s ++ [itemOf c])
             = (older ++ [itemOf c])%list).
  { unfold sliceLast. rewrite skipn_app, length_app. cbn [List.length].
    replace (List.length (memories s) + 1 - 3 - List.length (memories s))
      with 0 by lia.
    cbn [skipn]. eauto. }
  destruct Hrecent as (older & ->).
  assert (Hlines :
            match (older ++ [itemOf c])%list with
            | [] => "- No memories stored yet." ++ nl
            | recent =>
                join EmptyString (map (memoryLine toLocaleDateString) recent)
            end
            = join EmptyString (map (memoryLine toLocaleDateString) older)
              ++ memoryLine toLocaleDateString (itemOf c)).
  { rewrite <- join_empty_app.
    change [memoryLine toLocaleDateString (itemOf c)]
      with (map (memoryLine toLocaleDateString) [itemOf c]).
    rewrite <- map_app. destruct older; reflexivity. }
  rewrite Hlines, <- !append_assoc. eexists. reflexivity.
Qed.

(** X17.  The prompt tells the tones apart: two states whose avatars have
    different tones (no avatar counting as [casual]) never get the same
    prompt, whatever the schedule prompts are. *)
Theorem getSystemPrompt_tones_differ (toLocaleDateString : string -> string)
  (schedulePrompt schedulePrompt' : string) (s s' : AgentState) :
  currentTone s <> currentTone s' ->
  evalState (getSystemPrompt toLocaleDateString schedulePrompt) s
  <> evalState (getSystemPrompt toLocaleDateString schedulePrompt') s'.
Proof.
  intros Hdiff Heq. unfold evalState in Heq.
  rewrite !getSystemPrompt_run in Heq. cbn [fst] in Heq.
  apply append_cancel in Heq.
  destruct (currentTone s), (currentTone s');
    try (apply Hdiff; reflexivity); cbn in Heq; congruence.
Qed.

Lemma getSystemPrompt_tones_differ_witness :
  evalState (getSystemPrompt (fun iso => iso) "Schedule.") initialState
  <> evalState (getSystemPrompt (fun iso => iso) "Schedule.")
       {| avatar := Some (AvatarProfile.mk "a1" "Ann" EmptyString playful []);
          memories := [] |}.
Proof.
  apply getSystemPrompt_tones_differ. cbn. discriminate.
Defined.

(* ================================================================== *)
(** * Further properties of the query words and of the entry point *)

Lemma hasSpace_snoc (s : string) (c : ascii) :
  hasSpace (s ++ String c EmptyString) = hasSpace s || isSpace c.
Proof.
  induction s as [| ch s IH]; cbn [append hasSpace].
  - rewrite orb_false_r. reflexivity.
  - rewrite IH, orb_assoc. reflexivity.
Qed.

Lemma splitFrom_no_space (s : string) :
  forall (cur : string) (inSep : bool),
    hasSpace cur = false ->
    Forall (fun piece => hasSpace piece = false) (splitFrom cur inSep s).
Proof.
  induction s as [| c s IH]; intros cur inSep Hcur; cbn [splitFrom].
  - constructor; [exact Hcur | constructor].
  - destruct (isSpace c) eqn:Hc.
    + destruct inSep.
      * apply IH. reflexivity.
      * constructor; [exact Hcur |]. apply IH. reflexivity.
    + apply IH. rewrite hasSpace_snoc, Hcur, Hc. reflexivity.
Qed.

Lemma splitFrom_plain (s : string) :
  forall (cur : string) (inSep : bool),
    hasSpace s = false -> splitFrom cur inSep s = [cur ++ s].
Proof.
  induction s as [| c s IH]; intros cur inSep Hs; cbn [splitFrom].
  - rewrite append_empty_r. reflexivity.
  - cbn [hasSpace] in Hs. apply orb_false_iff in Hs. destruct Hs as (Hc & Hs).
    rewrite Hc, (IH _ _ Hs), append_assoc. reflexivity.
Qed.

Lemma splitFrom_blank (s : string) :
  forall inSep : bool,
    (forall before c rest, s = before ++ String c rest -> isSpace c = true) ->
    Forall (fun piece => piece = EmptyString)
      (splitFrom EmptyString inSep s).
Proof.
  induction s as [| c s IH]; intros inSep Hblank; cbn [splitFrom].
  - repeat constructor.
  - rewrite (Hblank EmptyString c s eq_refl).
    assert (Hrest : forall before c' rest,
               s = before ++ String c' rest -> isSpace c' = true).
    { intros before c' rest Heq.
      apply (Hblank (String c before) c' rest). cbn. rewrite Heq.
      reflexivity. }
    destruct inSep; [| constructor; [reflexivity |]]; apply IH, Hrest.
Qed.

(** X18.  The words of a query hold no white space, so a word never spans
    two words of the query.  A query without white space is one word,
    itself.  A query of white space only has no word that counts, so an
    entry can only score on it by containing the whole query. *)
Theorem splitWhitespace_words (queryLower : string) :
  Forall (fun word => hasSpace word = false) (splitWhitespace queryLower)
  /\ (hasSpace queryLower = false ->
      splitWhitespace queryLower = [queryLower])
  /\ ((forall before c rest,
         queryLower = before ++ String c rest -> isSpace c = true) ->
      countedWords queryLower = []
      /\ forall key doc,
           scoreDoc queryLower key doc
           = ((if includes queryLower key then 10 else 0)
              + (if includes (toLowerCase (title doc)) queryLower
                 then 5 else 0)
              + (if includes (toLowerCase (content doc)) queryLower
                 then 3 else 0))%Z).
Proof.
  split; [apply splitFrom_no_space; reflexivity |].
  split; [intros Hplain; apply (splitFrom_plain _ EmptyString), Hplain |].
  intros Hblank.
  assert (Hnone : countedWords queryLower = []).
  { unfold countedWords, splitWhitespace.
    pose proof (splitFrom_blank queryLower false Hblank) as Hall.
    induction Hall as [| piece pieces Hpiece Hall IH]; [reflexivity |].
    cbn [filter]. rewrite Hpiece. exact IH. }
  split; [exact Hnone |].
  intros key doc. rewrite scoreDoc_spec. unfold specScore.
  fold (countedWords queryLower). rewrite Hnone. cbn [map sumZ fold_right].
  lia.
Qed.

Lemma splitWhitespace_words_witness :
  splitWhitespace "tone" = ["tone"]
  /\ countedWords "  " = [].
Proof.
  split.
  - destruct (splitWhitespace_words "tone") as (_ & Hplain & _).
    exact (Hplain eq_refl).
  - destruct (splitWhitespace_words "  ") as (_ & _ & Hblank).
    destruct Hblank as (Hnone & _); [| exact Hnone].
    intros before c rest Heq.
    destruct before as [| b0 [| b1 [| b2 before]]]; cbn in Heq;
      try discriminate Heq; injection Heq; intros; subst; try reflexivity.
    all: destruct before; discriminate.
Defined.

(** X19.  The entry point matches its two fixed paths exactly and answers
    them with status 200 without asking the router.  Every other path is
    left to the router, and the answer is [404 Not found] exactly when the
    router has no agent for the request. *)
Theorem fetch_routes (pathname : string) (routed : option Response) :
  (pathname = "/check-open-ai-key" \/ pathname = "/api/avatar-state" ->
   status (fetch pathname routed) = 200%Z
   /\ fetch pathname routed = fetch pathname None)
  /\ (pathname <> "/check-open-ai-key" ->
      pathname <> "/api/avatar-state" ->
      fetch pathname routed
      = match routed with
        | Some r => r
        | None => {| status := 404; body := BText "Not found" |}
        end)
  /\ (status (fetch pathname None) = 404%Z
      <-> pathname <> "/check-open-ai-key"
          /\ pathname <> "/api/avatar-state").
Proof.
  unfold fetch.
  destruct (String.eqb_spec pathname "/check-open-ai-key") as [-> | Hhealth].
  { repeat split; try reflexivity; try congruence.
    - cbn. discriminate.
    - intros (H & _). congruence. }
  destruct (String.eqb_spec pathname "/api/avatar-state") as [-> | Hstate].
  { repeat split; try reflexivity; try congruence.
    - cbn. discriminate.
    - intros (_ & H). congruence. }
  repeat split; try reflexivity; try assumption.
  - destruct H; congruence.
  - destruct H; congruence.
Qed.

Lemma fetch_routes_witness :
  fetch "/api/avatar-state/" None
  = {| status := 404; body := BText "Not found" |}
  /\ status (fetch "/check-open-ai-key"
               (Some {| status := 500; body := BText "down" |})) = 200%Z.
Proof.
  split.
  - destruct (fetch_routes "/api/avatar-state/" None) as (_ & Hother & _).
    apply Hother; discriminate.
  - destruct (fetch_routes "/check-open-ai-key"
                (Some {| status := 500; body := BText "down" |}))
      as (Hfixed & _).
    destruct Hfixed as (Hstatus & _); [left; reflexivity | exact Hstatus].
Defined.
